(** * bahasa-gaul: slang statistics over a news table (main.py)

    A shallow embedding of [main.py]: the loader [load_data], the detector
    [detect_slang_words], the aggregator [analyze_news_and_slang], the part
    of the renderer that selects data, and [main].

    Conventions of the embedding.
    - A Python [str] is a Rocq [string]; each [ascii] stands for one code
      point in U+0000..U+00FF.  On that repertoire [str.lower] and the
      regular expression class [\w] are closed, and are given by the tables
      [char_lower] and [is_word] below.  Texts with other code points have
      no term here: there [str.lower] can change the length of a text and
      depends on the neighbours of a character, which [lower] does not.
    - A cell of an object column read by pandas is either a Python [str] or
      missing (the float NaN): type [cell].
    - Python integers that only count are [nat].
    - A [Counter] (and a pandas Series of counts) is an association list in
      insertion (respectively index) order, keys without repetition. *)

From Stdlib Require Import ZArith Ascii String.
From stdpp Require Import base decidable option list sorting strings pretty gmap.

Local Open Scope string_scope.
Local Open Scope list_scope.
Local Open Scope nat_scope.
Local Open Scope stdpp_scope.

(** ** Text: [str.lower] and [re.findall(r'\b\w+\b', _)] *)

Module Text.

Definition ord (c : ascii) : N := N_of_ascii c.

Definition between (lo hi : N) (c : ascii) : bool :=
  ((lo <=? ord c) && (ord c <=? hi))%N.

(** Code points with a lower-case mapping different from themselves:
    A..Z and U+00C0..U+00DE without the multiplication sign U+00D7. *)
Definition is_upper (c : ascii) : bool :=
  between 65 90 c || (between 192 222 c && negb (ord c =? 215)%N).

Definition char_lower (c : ascii) : ascii :=
  if is_upper c then ascii_of_N (ord c + 32) else c.

(** [str.lower()], character by character: right on U+0000..U+00FF, the
    repertoire of the embedding, where no mapping depends on the context. *)
Fixpoint lower (s : string) : string :=
  match s with
  | EmptyString => EmptyString
  | String c s' => String (char_lower c) (lower s')
  end.

(** The class [\w] of a [str] pattern: alphanumeric code points and the
    underscore.  Above U+007F these are the feminine and masculine
    ordinal indicators, the micro sign, the superscript digits, the vulgar
    fractions and the letters U+00C0..U+00FF without the two operators
    U+00D7 and U+00F7. *)
Definition is_word (c : ascii) : bool :=
  between 48 57 c || between 65 90 c || (ord c =? 95)%N || between 97 122 c
  || (ord c =? 170)%N || between 178 179 c || (ord c =? 181)%N
  || between 185 186 c || between 188 190 c
  || (between 192 255 c && negb (ord c =? 215)%N && negb (ord c =? 247)%N).

(** The token under construction is kept reversed in [cur]; [flush]
    emits it when it is not empty. *)
Definition flush (cur : list ascii) : list string :=
  match cur with
  | [] => []
  | _ :: _ => [string_of_list_ascii (rev cur)]
  end.

(** [re.findall(r'\b\w+\b', text)]: a left-to-right scan.  A match can
    only start where a word character follows a non-word character (or
    the start), [\w+] is greedy and the closing [\b] holds exactly at
    the end of the run, so the matches are the maximal runs of word
    characters. *)
Fixpoint scan (cur : list ascii) (s : string) : list string :=
  match s with
  | EmptyString => flush cur
  | String c s' =>
      if is_word c then scan (c :: cur) s'
      else flush cur ++ scan [] s'
  end.

Definition findall_words (text : string) : list string := scan [] text.

(** The digits 0..9. *)
Definition is_digit (c : ascii) : bool := between 48 57 c.

(** All characters of a string satisfy a test. *)
Fixpoint all_chars (p : ascii → bool) (s : string) : bool :=
  match s with
  | EmptyString => true
  | String c s' => p c && all_chars p s'
  end.

(** Does the string hold the character? *)
Fixpoint has_char (a : ascii) (s : string) : bool :=
  match s with
  | EmptyString => false
  | String c s' => bool_decide (c = a) || has_char a s'
  end.

End Text.

(** ** Cells and the detector *)

Inductive cell : Type :=
  | CText (s : string)
  | CNaN.

#[global] Instance cell_eq_dec : EqDecision cell.
Proof. solve_decision. Defined.

(** [str(value)] on a cell: a missing value is the float NaN. *)
Definition str (v : cell) : string :=
  match v with
  | CText s => s
  | CNaN => "nan"
  end.

(** One iteration of the loop of [detect_slang_words]. *)
Definition detect_step (slang_dictionary : gset string)
    (found_slang : list string) (word : string) : list string :=
  if decide (word ∈ slang_dictionary) then found_slang ++ [word]
  else found_slang.

Definition detect_slang_words (text : cell) (slang_dictionary : gset string)
    : list string :=
  let text := Text.lower (str text) in
  let words := Text.findall_words text in
  foldl (detect_step slang_dictionary) [] words.

(** The words of the set literal of [analyze_news_and_slang], in the order
    in which it lists them. *)
Definition slang_words : list string :=
    [ "gue"; "lu"; "elu"; "gw"; "loe"; "gak"; "nggak"; "gada"; "gaada";
      "udah"; "udh"; "dah"; "udeh"; "tuh"; "teh"; "mah"; "dong"; "deh";
      "sih"; "nih"; "mulu"; "aja"; "doang"; "banget"; "bgt"; "bener";
      "viral"; "netizen"; "followers"; "haters"; "hits"; "kece"; "gercep";
      "gabut"; "garing"; "receh"; "baper"; "kepo"; "julid"; "glow up";
      "otw"; "btw"; "asap"; "tfl"; "gas"; "gws"; "hbd"; "oot"; "tbh";
      "fyi"; "cmiiw"; "imho"; "tysm"; "wkwk"; "ttd"; "pdf";
      "gegara"; "santuy"; "gokil"; "cucok"; "mantul"; "mantap"; "sultan";
      "auto"; "anjay"; "yakali"; "sabi"; "jutek"; "lebay"; "kzl" ].

(** The vocabulary of [analyze_news_and_slang]. *)
Definition slang_dictionary : gset string := list_to_set slang_words.


(** ** Dates and [pd.to_datetime(_, format='%d/%m/%Y', errors='coerce')] *)

Record date : Type := Date { year : N; month : N; day : N }.

#[global] Instance date_eq_dec : EqDecision date.
Proof. solve_decision. Defined.

(** Calendar order. *)
Definition date_le (a b : date) : Prop :=
  (year a < year b
   ∨ (year a = year b
      ∧ (month a < month b ∨ (month a = month b ∧ day a ≤ day b))))%N.

#[global] Instance date_le_dec : RelDecision date_le.
Proof. intros a b. unfold date_le. apply _. Defined.

Module Strptime.

Definition digit (c : ascii) : option N :=
  if Text.between 48 57 c then Some (Text.ord c - 48)%N else None.

(** Split at every occurrence of [sep]; [cur] is the field under
    construction, reversed. *)
Fixpoint split_on (sep : ascii) (cur : list ascii) (s : string)
    : list (list ascii) :=
  match s with
  | EmptyString => [rev cur]
  | String c s' =>
      if decide (c = sep) then rev cur :: split_on sep [] s'
      else split_on sep (c :: cur) s'
  end.

Definition guard_range (lo hi v : N) : option N :=
  if ((lo <=? v) && (v <=? hi))%N then Some v else None.

(** Directive [%d]: [3[0-1]|[1-2]\d|0[1-9]|[1-9]| [1-9]]. *)
Definition directive_d (f : list ascii) : option N :=
  match f with
  | [a] => digit a ≫= guard_range 1 9
  | [a; b] =>
      if decide (a = " "%char) then digit b ≫= guard_range 1 9
      else x ← digit a; y ← digit b; guard_range 1 31 (10 * x + y)%N
  | _ => None
  end.

(** Directive [%m]: [1[0-2]|0[1-9]|[1-9]]. *)
Definition directive_m (f : list ascii) : option N :=
  match f with
  | [a] => digit a ≫= guard_range 1 9
  | [a; b] => x ← digit a; y ← digit b; guard_range 1 12 (10 * x + y)%N
  | _ => None
  end.

(** Directive [%Y]: four digits. *)
Definition directive_Y (f : list ascii) : option N :=
  match f with
  | [a; b; c; d] =>
      x ← digit a; y ← digit b; z ← digit c; w ← digit d;
      Some (1000 * x + 100 * y + 10 * z + w)%N
  | _ => None
  end.

Definition is_leap (y : N) : bool :=
  (((y mod 4 =? 0) && negb (y mod 100 =? 0)) || (y mod 400 =? 0))%N.

Definition days_in_month (y m : N) : N :=
  match m with
  | 1 | 3 | 5 | 7 | 8 | 10 | 12 => 31
  | 4 | 6 | 9 | 11 => 30
  | 2 => if is_leap y then 29 else 28
  | _ => 0
  end%N.

(** A midnight that a nanosecond-resolution timestamp can hold:
    1677-09-22 up to 2262-04-11. *)
Definition in_bounds (d : date) : bool :=
  bool_decide (date_le (Date 1677 9 22) d)
  && bool_decide (date_le d (Date 2262 4 11)).

(** The whole value has to match day/month/year, the day has to exist in
    the calendar and the instant has to be representable. *)
Definition parse_dmy (s : string) : option date :=
  match split_on "/"%char [] s with
  | [fd; fm; fy] =>
      d ← directive_d fd; m ← directive_m fm; y ← directive_Y fy;
      if (d <=? days_in_month y m)%N && in_bounds (Date y m d)
      then Some (Date y m d) else None
  | _ => None
  end.

End Strptime.

(** The [date_parser] of [load_data] on one cell; [None] is NaT.  A
    missing cell is NaT as well. *)
Definition to_datetime (v : cell) : option date :=
  match v with
  | CText s => Strptime.parse_dmy s
  | CNaN => None
  end.

(** ** The table *)

(** One line of the file as [pd.read_csv] delivers it, before the date
    column is converted. *)
Record raw_row : Type := MkRawRow {
  raw_Judul : cell; raw_Waktu : cell; raw_Link : cell; raw_Content : cell;
  raw_Tag1 : cell; raw_Tag2 : cell; raw_Tag3 : cell; raw_Tag4 : cell;
  raw_Tag5 : cell; raw_Source : cell
}.

(** A row of the loaded table. *)
Record row : Type := MkRow {
  Judul : cell; Waktu : option date; Link : cell; Content : cell;
  Tag1 : cell; Tag2 : cell; Tag3 : cell; Tag4 : cell; Tag5 : cell;
  Source : cell
}.

Abbreviation DataFrame := (list row).

Definition convert_row (r : raw_row) : row :=
  {| Judul := raw_Judul r; Waktu := to_datetime (raw_Waktu r);
     Link := raw_Link r; Content := raw_Content r;
     Tag1 := raw_Tag1 r; Tag2 := raw_Tag2 r; Tag3 := raw_Tag3 r;
     Tag4 := raw_Tag4 r; Tag5 := raw_Tag5 r; Source := raw_Source r |}.

(** What the [try] block of [load_data] meets: [pd.read_csv] delivers the
    lines of the file, or an exception is raised, [e] being its message. *)
Inductive read_outcome : Type :=
  | ReadOk (lines : list raw_row)
  | ReadError (e : string).

Abbreviation filesystem := (string → read_outcome).

(** [series.isnull().sum()] on the date column. *)
Definition isnull_sum (col : list (option date)) : nat :=
  length (filter (λ v, v = None) col).

(** Console output, one entry per [print]. *)
Abbreviation console := (list string).

Definition load_data (fs : filesystem) (file_path : string)
    : option DataFrame * console :=
  match fs file_path with
  | ReadOk lines =>
      let df := convert_row <$> lines in
      let invalid_dates := isnull_sum (Waktu <$> df) in
      (Some df,
       if decide (0 < invalid_dates)%nat
       then ["Peringatan: Terdapat " +:+ pretty invalid_dates
             +:+ " baris dengan format tanggal tidak valid"]
       else [])
  | ReadError e => (None, ["Error saat memuat data: " +:+ e])
  end.

(** ** Counters *)

Section Counter.
Context {K : Type} `{EqDecision K}.

(** [c[k] += 1]: an absent key counts as zero and is appended. *)
Fixpoint counter_incr (k : K) (c : list (K * nat)) : list (K * nat) :=
  match c with
  | [] => [(k, 1)]
  | (k', n) :: c' =>
      if decide (k' = k) then (k', S n) :: c'
      else (k', n) :: counter_incr k c'
  end.

(** [c.update(iterable)] *)
Definition counter_update (ws : list K) (c : list (K * nat))
    : list (K * nat) :=
  foldl (λ c w, counter_incr w c) c ws.

(** [c[k]], zero for an absent key. *)
Fixpoint counter_get (c : list (K * nat)) (k : K) : nat :=
  match c with
  | [] => 0
  | (k', n) :: c' => if decide (k' = k) then n else counter_get c' k
  end.

(** [sum(c.values())] *)
Definition counter_total (c : list (K * nat)) : nat := sum_list_with snd c.

(** Sorting a Series of counts by descending count.  Among equal counts
    pandas gives no order to rely on (it is that of its sorting routine,
    and not the order of first occurrence); the embedding has to pick one
    and inserts stably.  What is stated of a sorted Series below holds for
    every order among equal counts. *)
Fixpoint insert_by_count (x : K * nat) (l : list (K * nat))
    : list (K * nat) :=
  match l with
  | [] => [x]
  | y :: l' =>
      if decide (x.2 < y.2) then y :: insert_by_count x l'
      else x :: y :: l'
  end.

Definition sort_values_desc (l : list (K * nat)) : list (K * nat) :=
  foldr insert_by_count [] l.

(** [series.value_counts()] on the values that are not missing: the count
    of each value, sorted by descending count. *)
Definition value_counts (values : list K) : list (K * nat) :=
  sort_values_desc (counter_update values []).

(** Occurrences of a key in a list. *)
Definition count_of (k : K) (l : list K) : nat :=
  length (filter (λ x, x = k) l).

End Counter.

(** The values of a column that are not missing. *)
Definition dropna (col : list cell) : list string :=
  omap (λ v, match v with CText s => Some s | CNaN => None end) col.

Definition key_le (a b : date * nat) : Prop := date_le a.1 b.1.

#[global] Instance key_le_dec : RelDecision key_le.
Proof. intros a b. unfold key_le. apply _. Defined.

(** [df.groupby(dates).size()]: rows per date, NaT dropped, index sorted. *)
Definition groupby_size (col : list (option date)) : list (date * nat) :=
  merge_sort key_le (counter_update (omap id col) []).

Definition date_min (a b : date) : date := if decide (date_le a b) then a else b.
Definition date_max (a b : date) : date := if decide (date_le a b) then b else a.

(** [series.min()] and [series.max()]: NaT is skipped, and is the answer
    only when nothing else is there. *)
Definition reduce_dates (f : date → date → date) (col : list (option date))
    : option date :=
  foldl (λ acc v,
           match v, acc with
           | None, _ => acc
           | Some d, None => Some d
           | Some d, Some m => Some (f m d)
           end) None col.

Definition series_min : list (option date) → option date := reduce_dates date_min.
Definition series_max : list (option date) → option date := reduce_dates date_max.

(** ** The analysis result *)

Record contoh : Type := Contoh {
  judul : cell; waktu : option date; source : cell; kata_gaul : gset string
}.

Record results : Type := Results {
  total_berita : nat;
  periode : option date * option date;
  sumber_berita : list (string * nat);
  top_tags : list (string * nat);
  berita_per_hari : list (date * nat);
  berita_dengan_gaul_judul : nat;
  berita_dengan_gaul_konten : nat;
  frekuensi_kata_gaul : list (string * nat);
  berita_gaul_per_sumber : list (cell * nat);
  contoh_berita_gaul : list contoh
}.

Definition with_judul (f : nat → nat) (r : results) : results :=
  Results (total_berita r) (periode r) (sumber_berita r) (top_tags r)
    (berita_per_hari r) (f (berita_dengan_gaul_judul r))
    (berita_dengan_gaul_konten r) (frekuensi_kata_gaul r)
    (berita_gaul_per_sumber r) (contoh_berita_gaul r).

Definition with_konten (f : nat → nat) (r : results) : results :=
  Results (total_berita r) (periode r) (sumber_berita r) (top_tags r)
    (berita_per_hari r) (berita_dengan_gaul_judul r)
    (f (berita_dengan_gaul_konten r)) (frekuensi_kata_gaul r)
    (berita_gaul_per_sumber r) (contoh_berita_gaul r).

Definition with_frekuensi (f : list (string * nat) → list (string * nat))
    (r : results) : results :=
  Results (total_berita r) (periode r) (sumber_berita r) (top_tags r)
    (berita_per_hari r) (berita_dengan_gaul_judul r)
    (berita_dengan_gaul_konten r) (f (frekuensi_kata_gaul r))
    (berita_gaul_per_sumber r) (contoh_berita_gaul r).

Definition with_per_sumber (f : list (cell * nat) → list (cell * nat))
    (r : results) : results :=
  Results (total_berita r) (periode r) (sumber_berita r) (top_tags r)
    (berita_per_hari r) (berita_dengan_gaul_judul r)
    (berita_dengan_gaul_konten r) (frekuensi_kata_gaul r)
    (f (berita_gaul_per_sumber r)) (contoh_berita_gaul r).

Definition with_contoh (f : list contoh → list contoh) (r : results)
    : results :=
  Results (total_berita r) (periode r) (sumber_berita r) (top_tags r)
    (berita_per_hari r) (berita_dengan_gaul_judul r)
    (berita_dengan_gaul_konten r) (frekuensi_kata_gaul r)
    (berita_gaul_per_sumber r) (f (contoh_berita_gaul r)).

(** Truth value of a list: it is not empty. *)
Definition truthy {A} (l : list A) : bool :=
  match l with [] => false | _ :: _ => true end.

(** ** The aggregator *)

Section Aggregator.
Variable vocabulary : gset string.

(** The result before the loop over the rows (lines 71 to 85).  On a table
    without rows the column [Waktu] has no dates to take ([.dt], line 77)
    and the program raises there; [main] stops at that point, and the
    function below is the code's on every table with a row. *)
Definition initial_results (df : DataFrame) : results :=
  {| total_berita := length df;
     periode := (series_min (Waktu <$> df), series_max (Waktu <$> df));
     sumber_berita := value_counts (dropna (Source <$> df));
     top_tags :=
       take 10 (value_counts
                  (dropna ((Tag1 <$> df) ++ (Tag2 <$> df) ++ (Tag3 <$> df)
                           ++ (Tag4 <$> df) ++ (Tag5 <$> df))));
     berita_per_hari := groupby_size (Waktu <$> df);
     berita_dengan_gaul_judul := 0;
     berita_dengan_gaul_konten := 0;
     frekuensi_kata_gaul := [];
     berita_gaul_per_sumber := [];
     contoh_berita_gaul := [] |}.

(** The record appended to the examples for a row. *)
Definition contoh_of (rw : row) : contoh :=
  {| judul := Judul rw; waktu := Waktu rw; source := Source rw;
     kata_gaul :=
       list_to_set (detect_slang_words (Judul rw) vocabulary
                    ++ detect_slang_words (Content rw) vocabulary) |}.

(** The body of the loop.  The key of the per-source count is the cell
    [Source] as it is: a text, or the missing value.  The missing values of
    a column that also holds texts are one object and so one key, which is
    what [CNaN] stands for; in a column without any text each row brings a
    missing value of its own, and the keys that are not texts are then as
    many as the rows counted.  The counts at text keys, the total and the
    other fields do not depend on that. *)
Definition process_row (res : results) (rw : row) : results :=
  let slang_in_title := detect_slang_words (Judul rw) vocabulary in
  let slang_in_content := detect_slang_words (Content rw) vocabulary in
  let res :=
    if truthy slang_in_title
    then with_frekuensi (counter_update slang_in_title) (with_judul S res)
    else res in
  let res :=
    if truthy slang_in_content
    then with_frekuensi (counter_update slang_in_content)
           (with_konten S res)
    else res in
  if truthy slang_in_title || truthy slang_in_content
  then
    let res := with_per_sumber (counter_incr (Source rw)) res in
    if decide (length (contoh_berita_gaul res) < 5)%nat
    then with_contoh (λ l, l ++ [contoh_of rw]) res
    else res
  else res.

(** The loop over the rows, from any intermediate result. *)
Definition loop (res : results) (df : DataFrame) : results :=
  foldl process_row res df.

Definition analyze_with (df : DataFrame) : results :=
  loop (initial_results df) df.

End Aggregator.

Definition analyze_news_and_slang (df : DataFrame) : results :=
  analyze_with slang_dictionary df.

(** ** The renderer and the main sequence *)

Inductive plot : Type :=
  | BarSumber (data : list (string * nat))
  | BarTags (data : list (string * nat))
  | LineHarian (data : list (date * nat))
  | BarGaulSumber (data : list (cell * nat)).

Inductive event : Type :=
  | Stdout (line : string)
  | SaveFig (file : string) (plots : list plot).

(** [sizes] of lines 158 to 160, the numbers handed to [plt.pie]: the rows
    with slang in their content, and the other rows. *)
Definition pie_sizes (res : results) : list Z :=
  [ Z.of_nat (berita_dengan_gaul_konten res);
    (Z.of_nat (total_berita res)
     - Z.of_nat (berita_dengan_gaul_konten res))%Z ].

(** [DataFrame.from_dict(counter, orient='index', columns=['count'])
    .head(10)]: the first ten entries of the mapping, in its own order. *)
Definition top_words (res : results) : list (string * nat) :=
  take 10 (frekuensi_kata_gaul res).

(** [create_visualizations]: the files written, and whether the function
    returned ([false]: an exception left it).
    - A Series is drawn on the current axes: the first file holds the three
      charts of the first figure.  The bar chart of a Series without
      entries raises (lines 128 and 136), before anything is saved.
    - A DataFrame is drawn on a figure of its own.  The pie ([pie_sizes])
      and the bars of [top_words] end on figures that are never saved, and
      the second file holds the per-source bars alone.  The frame of
      [top_words] has no numeric column when the mapping is empty, and
      drawing it raises (line 169). *)
Definition create_visualizations (res : results) : list event * bool :=
  if truthy (sumber_berita res) && truthy (top_tags res) then
    let umum :=
      SaveFig "hasil_analisis_umum.png"
        [ BarSumber (sumber_berita res); BarTags (top_tags res);
          LineHarian (berita_per_hari res) ] in
    if truthy (top_words res) then
      ([ umum;
         SaveFig "hasil_analisis_bahasa_gaul.png"
           [ BarGaulSumber (berita_gaul_per_sumber res) ] ], true)
    else ([umum], false)
  else ([], false).

(** The dashboard draws literals only; its plots are left out. *)
Definition create_visual_report (res : results) : list event :=
  [ SaveFig "laporan_visual.png" [];
    Stdout "Visualisasi laporan telah disimpan sebagai 'laporan_visual.png'" ].

Definition newline : string := String (ascii_of_nat 10) EmptyString.

(** [main]: the events in order, and the analysis result when the
    analysis returned one.  No exception is caught outside [load_data]:
    the sequence ends where the analysis (a table without rows) or the
    drawing raises. *)
Definition main (fs : filesystem) : list event * option results :=
  let file_path := "politik_merge.csv" in
  let '(df, out) := load_data fs file_path in
  let head := Stdout "Memuat dataset..." :: (Stdout <$> out) in
  match df with
  | None => (head, None)
  | Some [] =>
      (head ++ [Stdout "Menganalisis data dan penggunaan bahasa gaul..."],
       None)
  | Some df =>
      let res := analyze_news_and_slang df in
      let '(figures, returned) := create_visualizations res in
      let drawn :=
        head
        ++ [Stdout "Menganalisis data dan penggunaan bahasa gaul..."]
        ++ [Stdout "Membuat visualisasi..."]
        ++ figures in
      if returned then
        (drawn
         ++ [Stdout (newline +:+ "Membuat laporan...")]
         ++ create_visual_report res
         ++ [Stdout (newline +:+ "Laporan telah disimpan sebagai 'laporan_analisis_lengkap.txt'");
             Stdout "Visualisasi telah disimpan sebagai 'hasil_analisis_umum.png' dan 'hasil_analisis_bahasa_gaul.png'"],
         Some res)
      else (drawn, Some res)
  end.

(** An article with a title, a content and a source, every other cell
    missing; used to write tables down. *)
Definition berita (title content src : string) : row :=
  {| Judul := CText title; Waktu := None; Link := CNaN;
     Content := CText content;
     Tag1 := CNaN; Tag2 := CNaN; Tag3 := CNaN; Tag4 := CNaN; Tag5 := CNaN;
     Source := CText src |}.

(** A line of the file with a title, a date field and a source. *)
Definition baris (title date src : string) : raw_row :=
  {| raw_Judul := CText title; raw_Waktu := CText date; raw_Link := CNaN;
     raw_Content := CNaN; raw_Tag1 := CNaN; raw_Tag2 := CNaN;
     raw_Tag3 := CNaN; raw_Tag4 := CNaN; raw_Tag5 := CNaN;
     raw_Source := CText src |}.

(** A line of the file with a title, a date field, a content, one tag and
    a source. *)
Definition artikel (title date content tag src : string) : raw_row :=
  {| raw_Judul := CText title; raw_Waktu := CText date; raw_Link := CNaN;
     raw_Content := CText content; raw_Tag1 := CText tag; raw_Tag2 := CNaN;
     raw_Tag3 := CNaN; raw_Tag4 := CNaN; raw_Tag5 := CNaN;
     raw_Source := CText src |}.

(** Two files whose lines all have a date, a tag and a source, so that
    every chart has something to draw.  In the first the word met first is
    the less frequent one; in the second ten words occur once before an
    eleventh occurs three times. *)
Definition two_word_lines : list raw_row :=
  [ artikel "gue" "01/01/2024" "x" "politik" "Detik";
    artikel "lu lu" "02/01/2024" "x" "politik" "Detik" ].

Definition eleven_word_lines : list raw_row :=
  [ artikel "gue lu elu gw loe gak nggak gada gaada udah" "01/01/2024" "x"
      "politik" "Detik";
    artikel "viral viral viral" "02/01/2024" "x" "politik" "Detik" ].

(** ** Vocabulary of the statements *)

Definition title_slang (vocab : gset string) (rw : row) : list string :=
  detect_slang_words (Judul rw) vocab.

Definition content_slang (vocab : gset string) (rw : row) : list string :=
  detect_slang_words (Content rw) vocab.

(** The row has a match in its title or in its content. *)
Definition has_slang (vocab : gset string) (rw : row) : bool :=
  truthy (title_slang vocab rw) || truthy (content_slang vocab rw).

(** A counter as the code builds them: no key twice, no zero entry. *)
Definition counter_wf {K} (c : list (K * nat)) : Prop :=
  NoDup (c.*1) ∧ Forall (λ kv, 0 < kv.2) c.

(** The part of the result that the loop over the rows writes. *)
Definition same_tally (r r' : results) : Prop :=
  berita_dengan_gaul_judul r = berita_dengan_gaul_judul r'
  ∧ berita_dengan_gaul_konten r = berita_dengan_gaul_konten r'
  ∧ frekuensi_kata_gaul r = frekuensi_kata_gaul r'
  ∧ berita_gaul_per_sumber r = berita_gaul_per_sumber r'
  ∧ contoh_berita_gaul r = contoh_berita_gaul r'.

(** The words of the specification for the tokens, "alphanumeric and
    underscore runs": [word_runs s ws] when [ws] are the maximal runs of
    word characters of [s], from left to right.  The text starts with
    characters outside the class ([sep]), then comes a run [w] that is not
    empty, and what follows the run does not start with a word
    character. *)
Definition outside_word (c : ascii) : bool := negb (Text.is_word c).

Definition starts_outside (s : string) : Prop :=
  match s with
  | EmptyString => True
  | String c _ => Text.is_word c = false
  end.

Inductive word_runs : string → list string → Prop :=
  | word_runs_nil (sep : string) :
      Text.all_chars outside_word sep = true →
      word_runs sep []
  | word_runs_cons (sep w rest : string) (ws : list string) :
      Text.all_chars outside_word sep = true →
      w ≠ "" →
      Text.all_chars Text.is_word w = true →
      starts_outside rest →
      word_runs rest ws →
      word_runs (sep +:+ w +:+ rest) (w :: ws).

(** The entries of a per-source count whose key is a text. *)
Definition text_entries (c : list (cell * nat)) : list (string * nat) :=
  omap (λ e, match e.1 with
             | CText s => Some (s, e.2)
             | CNaN => None
             end) c.

(** A day of the calendar that a nanosecond timestamp can hold. *)
Definition valid_date (d : date) : Prop :=
  (1 ≤ month d ≤ 12)%N
  ∧ (1 ≤ day d ≤ Strptime.days_in_month (year d) (month d))%N
  ∧ date_le (Date 1677 9 22) d ∧ date_le d (Date 2262 4 11).

(** Two results agree on what the loop writes, the timestamps of the
    examples left aside. *)
Definition same_slang (r r' : results) : Prop :=
  berita_dengan_gaul_judul r = berita_dengan_gaul_judul r'
  ∧ berita_dengan_gaul_konten r = berita_dengan_gaul_konten r'
  ∧ frekuensi_kata_gaul r = frekuensi_kata_gaul r'
  ∧ berita_gaul_per_sumber r = berita_gaul_per_sumber r'
  ∧ Forall2 (λ e e', judul e = judul e' ∧ source e = source e'
                     ∧ kata_gaul e = kata_gaul e')
      (contoh_berita_gaul r) (contoh_berita_gaul r').

(** * Properties *)

(** ** The tokenizer *)

Module TextFacts.
Import Text.

Lemma all_chars_of_list (p : ascii → bool) (l : list ascii) :
  Forall (λ c, p c = true) l → all_chars p (string_of_list_ascii l) = true.
Proof.
  induction 1 as [|c l Hc _ IH]; simpl; [done|]. by rewrite Hc, IH.
Qed.

Lemma string_of_list_nonempty (l : list ascii) :
  l ≠ [] → string_of_list_ascii l ≠ "".
Proof. by destruct l. Qed.

Lemma flush_nonempty (cur : list ascii) :
  cur ≠ [] → flush cur = [string_of_list_ascii (rev cur)].
Proof. by destruct cur. Qed.

Lemma flush_all (p : ascii → bool) (cur : list ascii) :
  Forall (λ c, p c = true) cur →
  Forall (λ w, w ≠ "" ∧ all_chars p w = true) (flush cur).
Proof.
  intros Hcur. destruct cur as [|c cur]; simpl; [constructor|].
  repeat constructor.
  - apply string_of_list_nonempty. by destruct (rev cur).
  - apply all_chars_of_list. change (rev cur ++ [c]) with (rev (c :: cur)).
    by apply Forall_rev.
Qed.

(** Every token is a non-empty run of characters of the text that are
    word characters, so it inherits whatever holds of those. *)
Lemma scan_all (p : ascii → bool) (cur : list ascii) (s : string) :
  Forall (λ c, p c = true) cur →
  (∀ c, has_char c s = true → is_word c = true → p c = true) →
  Forall (λ w, w ≠ "" ∧ all_chars p w = true) (scan cur s).
Proof.
  revert cur. induction s as [|a s IH]; intros cur Hcur Hs; simpl.
  - by apply flush_all.
  - assert (∀ c, has_char c s = true → is_word c = true → p c = true) as Hs'.
    { intros c Hc. apply Hs. simpl. rewrite Hc. apply orb_true_r. }
    destruct (is_word a) eqn:Ha.
    + apply IH; [|done]. constructor; [|done].
      apply Hs; [|done]. simpl. by rewrite bool_decide_eq_true_2.
    + apply Forall_app. split; [by apply flush_all|]. by apply IH.
Qed.

Lemma findall_words_runs (s : string) :
  Forall (λ w, w ≠ "" ∧ all_chars is_word w = true) (findall_words s).
Proof. apply scan_all; [constructor|done]. Qed.

(** A character that is not a word character ends the token before it
    and belongs to none. *)
Lemma scan_separator (cur : list ascii) (s1 : string) (c : ascii) (s2 : string) :
  is_word c = false →
  scan cur (s1 +:+ String c s2) = scan cur s1 ++ scan [] s2.
Proof.
  intros Hc. revert cur. induction s1 as [|a s1 IH]; intros cur; simpl.
  - by rewrite Hc.
  - destruct (is_word a); [done|]. by rewrite IH, (assoc_L (++)).
Qed.

Lemma findall_words_separator (s1 : string) (c : ascii) (s2 : string) :
  is_word c = false →
  findall_words (s1 +:+ String c s2) = findall_words s1 ++ findall_words s2.
Proof. apply scan_separator. Qed.

Lemma scan_run (cur : list ascii) (w : string) :
  all_chars is_word w = true →
  scan cur w = flush (rev (list_ascii_of_string w) ++ cur).
Proof.
  revert cur. induction w as [|a w IH]; intros cur Hw; simpl in *; [done|].
  apply andb_true_iff in Hw as [Ha Hw]. rewrite Ha, IH by done.
  by rewrite <-(assoc_L (++)).
Qed.

(** A text without word characters has no token. *)
Lemma findall_words_no_words (s : string) :
  all_chars (λ c, negb (is_word c)) s = true → findall_words s = [].
Proof.
  unfold findall_words. induction s as [|a s IH]; simpl; [done|].
  intros [Ha%negb_true_iff Hs]%andb_true_iff. rewrite Ha. by apply IH.
Qed.

(** A non-empty run of word characters is one token: the run is never
    cut (the match is greedy). *)
Lemma findall_words_run (w : string) :
  w ≠ "" → all_chars is_word w = true → findall_words w = [w].
Proof.
  intros Hne Hw. unfold findall_words. rewrite scan_run, app_nil_r by done.
  rewrite flush_nonempty.
  - by rewrite rev_involutive, string_of_list_ascii_of_string.
  - destruct w as [|a w]; [done|]. simpl.
    by destruct (rev (list_ascii_of_string w)).
Qed.

Lemma char_lower_idemp (c : ascii) : char_lower (char_lower c) = char_lower c.
Proof. destruct c as [[] [] [] [] [] [] [] []]; reflexivity. Qed.

Lemma lower_chars (s : string) (c : ascii) :
  has_char c (lower s) = true → char_lower c = c.
Proof.
  induction s as [|a s IH]; simpl; [done|].
  intros [Ha%bool_decide_eq_true|Hc]%orb_true_iff; [|auto].
  subst c. apply char_lower_idemp.
Qed.

Lemma lower_fixed (w : string) :
  all_chars (λ c, bool_decide (char_lower c = c)) w = true → lower w = w.
Proof.
  induction w as [|a w IH]; simpl; [done|].
  intros [Ha%bool_decide_eq_true Hw]%andb_true_iff. by rewrite Ha, IH.
Qed.

(** The tokens of a lower-cased text are in lower case. *)
Lemma findall_words_lower (s : string) :
  Forall (λ w, lower w = w) (findall_words (lower s)).
Proof.
  eapply Forall_impl.
  - apply (scan_all (λ c, bool_decide (char_lower c = c))); [constructor|].
    intros c Hc _. apply bool_decide_eq_true, (lower_chars s c Hc).
  - intros w [_ Hw]. by apply lower_fixed.
Qed.

Lemma all_chars_has_char (p : ascii → bool) (w : string) (c : ascii) :
  all_chars p w = true → has_char c w = true → p c = true.
Proof.
  induction w as [|a w IH]; simpl; [done|].
  intros [Ha Hw]%andb_true_iff [Hc%bool_decide_eq_true|Hc]%orb_true_iff;
    [by subst|auto].
Qed.

(** A string that holds a character outside [\w] is never a token. *)
Lemma findall_words_no_nonword (s w : string) (c : ascii) :
  has_char c w = true → is_word c = false → w ∉ findall_words s.
Proof.
  intros Hc Hnw Hin.
  pose proof (findall_words_runs s) as Hall.
  rewrite Forall_forall in Hall. destruct (Hall w Hin) as [_ Hw].
  pose proof (all_chars_has_char _ _ _ Hw Hc). congruence.
Qed.

End TextFacts.

(** ** The detector *)

Lemma detect_fold (vocab : gset string) (words acc : list string) :
  foldl (detect_step vocab) acc words = acc ++ filter (λ w, w ∈ vocab) words.
Proof.
  revert acc. induction words as [|w words IH]; intros acc; simpl.
  - by rewrite app_nil_r.
  - rewrite IH, filter_cons. unfold detect_step.
    destruct (decide (w ∈ vocab)); [|done]. by rewrite <-(assoc_L (++)).
Qed.

Lemma detect_slang_words_filter (text : cell) (vocab : gset string) :
  detect_slang_words text vocab
  = filter (λ w, w ∈ vocab) (Text.findall_words (Text.lower (str text))).
Proof. unfold detect_slang_words. by rewrite detect_fold. Qed.

(** ** Counters *)

Section CounterFacts.
Context {K : Type} `{EqDecision K}.
Implicit Types c : list (K * nat).
Implicit Types k : K.

Lemma counter_get_incr k k' c :
  counter_get (counter_incr k c) k'
  = counter_get c k' + (if decide (k = k') then 1 else 0).
Proof.
  induction c as [|[k0 n] c IH]; simpl.
  - destruct (decide (k = k')); done.
  - destruct (decide (k0 = k)) as [->|Hne]; simpl.
    + destruct (decide (k = k')); lia.
    + rewrite IH. repeat case_decide; simplify_eq; lia.
Qed.

Lemma counter_get_update ws c k :
  counter_get (counter_update ws c) k = counter_get c k + count_of k ws.
Proof.
  unfold counter_update, count_of. revert c.
  induction ws as [|w ws IH]; intros c; simpl; [lia|].
  rewrite IH, counter_get_incr, filter_cons.
  destruct (decide (w = k)); simpl; lia.
Qed.

Lemma counter_total_incr k c :
  counter_total (counter_incr k c) = S (counter_total c).
Proof.
  unfold counter_total. induction c as [|[k0 n] c IH]; simpl; [done|].
  destruct (decide (k0 = k)); simpl; [done|]. rewrite IH. lia.
Qed.

Lemma counter_total_update ws c :
  counter_total (counter_update ws c) = counter_total c + length ws.
Proof.
  unfold counter_update. revert c.
  induction ws as [|w ws IH]; intros c; simpl; [lia|].
  rewrite IH, counter_total_incr. lia.
Qed.

Lemma counter_get_le_total c k : counter_get c k ≤ counter_total c.
Proof.
  unfold counter_total. induction c as [|[k0 n] c IH]; simpl; [done|].
  destruct (decide (k0 = k)); lia.
Qed.

Lemma counter_incr_keys k c :
  (counter_incr k c).*1 = if decide (k ∈ c.*1) then c.*1 else c.*1 ++ [k].
Proof.
  induction c as [|[k0 n] c IH]; csimpl.
  - first [done | by destruct (decide (k ∈ [])) as [Hin%elem_of_nil|]].
  - destruct (decide (k0 = k)) as [->|Hne]; csimpl.
    + rewrite decide_True; [done|]. by left.
    + rewrite IH. destruct (decide (k ∈ c.*1)) as [Hin|Hnin].
      * rewrite decide_True; [done|]. by right.
      * rewrite decide_False; [done|].
        intros [?|?]%elem_of_cons; congruence.
Qed.

Lemma counter_incr_positive k c :
  Forall (λ kv, 0 < kv.2) c → Forall (λ kv, 0 < kv.2) (counter_incr k c).
Proof.
  induction 1 as [|[k0 n] c Hn Hc IH]; simpl.
  - repeat constructor.
  - destruct (decide (k0 = k)); constructor; simpl in *; auto with lia.
Qed.

Lemma counter_incr_wf k c : counter_wf c → counter_wf (counter_incr k c).
Proof.
  intros [Hnd Hpos]. split; [|by apply counter_incr_positive].
  rewrite counter_incr_keys. destruct (decide (k ∈ c.*1)); [done|].
  apply NoDup_app. split_and!; [done| |apply NoDup_singleton].
  intros x Hx ->%list_elem_of_singleton. done.
Qed.

Lemma counter_update_wf ws c : counter_wf c → counter_wf (counter_update ws c).
Proof.
  unfold counter_update. revert c.
  induction ws as [|w ws IH]; intros c Hc; simpl; [done|].
  by apply IH, counter_incr_wf.
Qed.

Lemma counter_wf_nil : counter_wf ([] : list (K * nat)).
Proof. split; constructor. Qed.

(** In a well-formed counter the entries are the keys with a count
    other than zero, each with its count. *)
Lemma counter_elem_of c k n :
  counter_wf c → (k, n) ∈ c ↔ 0 < n ∧ counter_get c k = n.
Proof.
  intros [Hnd Hpos]. induction c as [|[k0 n0] c IH]; simpl.
  - split; [by intros ?%elem_of_nil|lia].
  - apply NoDup_cons in Hnd as [Hk0 Hnd].
    apply Forall_cons in Hpos as [Hn0 Hpos]. simpl in *.
    rewrite elem_of_cons, (IH Hnd Hpos).
    destruct (decide (k0 = k)) as [->|Hne].
    + split.
      * intros [[= ->]|[Hn Hget]]; [done|].
        exfalso. apply Hk0.
        assert ((k, n) ∈ c) as Hin by (by apply (IH Hnd Hpos)).
        apply list_elem_of_fmap. by exists (k, n).
      * intros [Hn ->]. by left.
    + split; [|by right]. intros [[= ? ?]|?]; [congruence|done].
Qed.

(** Two well-formed counters with the same counts have the same
    entries. *)
Lemma counter_ext c1 c2 :
  counter_wf c1 → counter_wf c2 →
  (∀ k, counter_get c1 k = counter_get c2 k) → c1 ≡ₚ c2.
Proof.
  intros Hc1 Hc2 Hget. apply NoDup_Permutation.
  - eapply NoDup_fmap_1, Hc1.
  - eapply NoDup_fmap_1, Hc2.
  - intros [k n]. rewrite !counter_elem_of, Hget by done. done.
Qed.

Lemma counter_wf_Permutation c1 c2 :
  c1 ≡ₚ c2 → counter_wf c1 → counter_wf c2.
Proof. intros Hc [Hnd Hpos]. split; by rewrite <-Hc. Qed.

Lemma counter_get_Permutation c1 c2 k :
  counter_wf c1 → c1 ≡ₚ c2 → counter_get c1 k = counter_get c2 k.
Proof.
  intros Hwf1 Hc. pose proof (counter_wf_Permutation _ _ Hc Hwf1) as Hwf2.
  destruct (counter_get c1 k) as [|n] eqn:E1.
  - destruct (counter_get c2 k) as [|m] eqn:E2; [done|].
    assert ((k, S m) ∈ c2) as Hin
      by (apply counter_elem_of; [done|split; [lia|done]]).
    rewrite <-Hc in Hin. apply counter_elem_of in Hin as [_ Hin]; [|done].
    congruence.
  - assert ((k, S n) ∈ c1) as Hin
      by (apply counter_elem_of; [done|split; [lia|done]]).
    rewrite Hc in Hin. apply counter_elem_of in Hin as [_ Hin]; [|done].
    congruence.
Qed.

Lemma count_of_Permutation k (l1 l2 : list K) :
  l1 ≡ₚ l2 → count_of k l1 = count_of k l2.
Proof. unfold count_of. by intros ->. Qed.

Lemma counter_update_Permutation (l1 l2 : list K) :
  l1 ≡ₚ l2 → counter_update l1 [] ≡ₚ counter_update l2 [].
Proof.
  intros Hl. apply counter_ext; try apply counter_update_wf, counter_wf_nil.
  intros k. by rewrite !counter_get_update, (count_of_Permutation k l1 l2).
Qed.

Lemma insert_by_count_Permutation x c : insert_by_count x c ≡ₚ x :: c.
Proof.
  induction c as [|y c IH]; simpl; [done|].
  destruct (decide (x.2 < y.2)); [|done]. by rewrite IH, Permutation_swap.
Qed.

Lemma sort_values_desc_Permutation c : sort_values_desc c ≡ₚ c.
Proof.
  induction c as [|x c IH]; simpl; [done|].
  by rewrite insert_by_count_Permutation, IH.
Qed.

Lemma insert_by_count_Sorted x c :
  Sorted (λ a b, b.2 ≤ a.2) c → Sorted (λ a b, b.2 ≤ a.2) (insert_by_count x c).
Proof.
  induction 1 as [|y c Hc IH Hhd]; simpl; [by repeat constructor|].
  destruct (decide (x.2 < y.2)).
  - constructor; [done|]. destruct Hhd as [|z c Hz]; simpl.
    + constructor. lia.
    + destruct (decide (x.2 < z.2)); constructor; [done|lia].
  - repeat constructor; [done..|lia].
Qed.

(** The counts of [value_counts] come in descending order. *)
Lemma value_counts_Sorted (l : list K) :
  Sorted (λ a b, b.2 ≤ a.2) (value_counts l).
Proof.
  unfold value_counts, sort_values_desc.
  induction (counter_update l []) as [|x c IH]; simpl; [constructor|].
  by apply insert_by_count_Sorted.
Qed.

Lemma Sorted_take {A} (R : relation A) (n : nat) (l : list A) :
  Sorted R l → Sorted R (take n l).
Proof.
  intros Hl. revert n. induction Hl as [|x l Hl IH Hhd]; intros [|n]; simpl;
    [constructor..|].
  constructor; [apply IH|]. destruct Hhd, n; simpl; by constructor.
Qed.

Lemma value_counts_Permutation (l1 l2 : list K) :
  l1 ≡ₚ l2 → value_counts l1 ≡ₚ value_counts l2.
Proof.
  intros Hl. unfold value_counts.
  by rewrite !sort_values_desc_Permutation, (counter_update_Permutation l1 l2).
Qed.

Lemma value_counts_total (l : list K) :
  counter_total (value_counts l) = length l.
Proof.
  unfold value_counts, counter_total.
  rewrite sort_values_desc_Permutation. apply (counter_total_update l []).
Qed.

End CounterFacts.

(** ** The aggregator *)

Section AggregatorFacts.
Variable V : gset string.

(** The loop body, field by field. *)
Lemma process_row_fields (res : results) (rw : row) :
  process_row V res rw
  = {| total_berita := total_berita res;
       periode := periode res;
       sumber_berita := sumber_berita res;
       top_tags := top_tags res;
       berita_per_hari := berita_per_hari res;
       berita_dengan_gaul_judul :=
         if truthy (title_slang V rw) then S (berita_dengan_gaul_judul res)
         else berita_dengan_gaul_judul res;
       berita_dengan_gaul_konten :=
         if truthy (content_slang V rw)
         then S (berita_dengan_gaul_konten res)
         else berita_dengan_gaul_konten res;
       frekuensi_kata_gaul :=
         counter_update (content_slang V rw)
           (counter_update (title_slang V rw) (frekuensi_kata_gaul res));
       berita_gaul_per_sumber :=
         if has_slang V rw
         then counter_incr (Source rw) (berita_gaul_per_sumber res)
         else berita_gaul_per_sumber res;
       contoh_berita_gaul :=
         if has_slang V rw
            && bool_decide (length (contoh_berita_gaul res) < 5)
         then contoh_berita_gaul res ++ [contoh_of V rw]
         else contoh_berita_gaul res |}.
Proof.
  unfold process_row, has_slang, title_slang, content_slang.
  destruct res as [t p sb tt bh j k f ps ex]; simpl.
  destruct (detect_slang_words (Judul rw) V),
           (detect_slang_words (Content rw) V); simpl;
    try reflexivity; case_decide;
    first [ rewrite bool_decide_eq_true_2 by done
          | rewrite bool_decide_eq_false_2 by done ]; reflexivity.
Qed.

Lemma loop_cons res rw df : loop V res (rw :: df) = loop V (process_row V res rw) df.
Proof. done. Qed.

Ltac loop_induction df res IH :=
  revert res; induction df as [|rw df IH]; intros res;
  [ simpl | rewrite loop_cons, IH, process_row_fields; simpl ].

Lemma loop_frame res df :
  total_berita (loop V res df) = total_berita res
  ∧ periode (loop V res df) = periode res
  ∧ sumber_berita (loop V res df) = sumber_berita res
  ∧ top_tags (loop V res df) = top_tags res
  ∧ berita_per_hari (loop V res df) = berita_per_hari res.
Proof.
  revert res. induction df as [|rw df IH]; intros res; [done|].
  rewrite loop_cons. destruct (IH (process_row V res rw)) as (->&->&->&->&->).
  by rewrite process_row_fields.
Qed.

Lemma loop_judul res df :
  berita_dengan_gaul_judul (loop V res df)
  = berita_dengan_gaul_judul res
    + length (filter (λ rw, truthy (title_slang V rw) = true) df).
Proof.
  loop_induction df res IH; [lia|]. rewrite filter_cons.
  destruct (truthy (title_slang V rw)); simpl; lia.
Qed.

Lemma loop_konten res df :
  berita_dengan_gaul_konten (loop V res df)
  = berita_dengan_gaul_konten res
    + length (filter (λ rw, truthy (content_slang V rw) = true) df).
Proof.
  loop_induction df res IH; [lia|]. rewrite filter_cons.
  destruct (truthy (content_slang V rw)); simpl; lia.
Qed.

Lemma loop_frekuensi_get res df w :
  counter_get (frekuensi_kata_gaul (loop V res df)) w
  = counter_get (frekuensi_kata_gaul res) w
    + sum_list_with
        (λ rw, count_of w (title_slang V rw) + count_of w (content_slang V rw))
        df.
Proof.
  loop_induction df res IH; [lia|]. rewrite !counter_get_update. lia.
Qed.

Lemma loop_frekuensi_total res df :
  counter_total (frekuensi_kata_gaul (loop V res df))
  = counter_total (frekuensi_kata_gaul res)
    + sum_list_with
        (λ rw, length (title_slang V rw) + length (content_slang V rw)) df.
Proof.
  loop_induction df res IH; [lia|]. rewrite !counter_total_update. lia.
Qed.

Lemma loop_frekuensi_wf res df :
  counter_wf (frekuensi_kata_gaul res) →
  counter_wf (frekuensi_kata_gaul (loop V res df)).
Proof.
  revert res. induction df as [|rw df IH]; intros res Hwf; [done|].
  rewrite loop_cons. apply IH. rewrite process_row_fields. simpl.
  by do 2 apply counter_update_wf.
Qed.

Lemma loop_per_sumber_get res df s :
  counter_get (berita_gaul_per_sumber (loop V res df)) s
  = counter_get (berita_gaul_per_sumber res) s
    + length (filter (λ rw, has_slang V rw = true ∧ Source rw = s) df).
Proof.
  loop_induction df res IH; [lia|]. rewrite filter_cons.
  destruct (decide (has_slang V rw = true ∧ Source rw = s)) as [[-> Hs]|Hn].
  - rewrite counter_get_incr, decide_True by done. simpl. lia.
  - destruct (has_slang V rw); [|lia].
    rewrite counter_get_incr, decide_False by (intros ?; by apply Hn). lia.
Qed.

Lemma loop_per_sumber_wf res df :
  counter_wf (berita_gaul_per_sumber res) →
  counter_wf (berita_gaul_per_sumber (loop V res df)).
Proof.
  revert res. induction df as [|rw df IH]; intros res Hwf; [done|].
  rewrite loop_cons. apply IH. rewrite process_row_fields. simpl.
  destruct (has_slang V rw); [by apply counter_incr_wf|done].
Qed.

Lemma loop_contoh res df :
  contoh_berita_gaul (loop V res df)
  = contoh_berita_gaul res
    ++ take (5 - length (contoh_berita_gaul res))
         (contoh_of V <$> filter (λ rw, has_slang V rw = true) df).
Proof.
  loop_induction df res IH; [by rewrite take_nil, app_nil_r|].
  rewrite filter_cons. destruct (has_slang V rw); simpl; [|done].
  case_bool_decide as Hlen.
  - rewrite length_app, <-(assoc_L (++)). simpl. f_equal.
    destruct (5 - length (contoh_berita_gaul res)) as [|m] eqn:E; [lia|].
    simpl. do 2 f_equal. lia.
  - replace (5 - length (contoh_berita_gaul res)) with 0 by lia. done.
Qed.

End AggregatorFacts.

Lemma analyze_with_loop (V : gset string) (df : DataFrame) :
  analyze_with V df = loop V (initial_results df) df.
Proof. done. Qed.

(** ** Dates and the pandas columns *)

#[global] Instance date_le_total : Total date_le.
Proof. intros [] []. unfold date_le. simpl. lia. Qed.

#[global] Instance date_le_trans : Transitive date_le.
Proof. intros [] [] []. unfold date_le. simpl. lia. Qed.

#[global] Instance date_le_antisymm : AntiSymm (=) date_le.
Proof.
  intros [y1 m1 d1] [y2 m2 d2]. unfold date_le. simpl. intros H1 H2.
  assert (y1 = y2 ∧ m1 = m2 ∧ d1 = d2) as (-> & -> & ->) by lia. done.
Qed.

#[global] Instance key_le_total : Total key_le.
Proof. intros a b. apply (total date_le). Qed.

#[global] Instance key_le_trans : Transitive key_le.
Proof. intros a b c. apply (transitivity (R:=date_le)). Qed.

Lemma groupby_size_Permutation (col col' : list (option date)) :
  col ≡ₚ col' → groupby_size col = groupby_size col'.
Proof.
  intros Hcol. unfold groupby_size.
  assert (counter_update (omap id col) [] ≡ₚ counter_update (omap id col') [])
    as Hc by (apply counter_update_Permutation; by rewrite Hcol).
  apply (StronglySorted_unique_strong key_le);
    [|apply StronglySorted_merge_sort; apply _..
     |by rewrite !merge_sort_Permutation].
  intros [d1 n1] [d2 n2] H1 H2 Hle1 Hle2.
  rewrite merge_sort_Permutation in H1. rewrite merge_sort_Permutation in H2.
  rewrite <-Hc in H2.
  assert (d1 = d2) as -> by (by apply (anti_symm date_le)).
  pose proof (counter_update_wf (omap id col) [] counter_wf_nil) as Hwf.
  apply (counter_elem_of _ _ _ Hwf) in H1 as [_ <-].
  apply (counter_elem_of _ _ _ Hwf) in H2 as [_ <-]. done.
Qed.

Lemma dropna_length (col : list cell) :
  length (dropna col) + length (filter (λ v, v = CNaN) col) = length col.
Proof.
  unfold dropna. induction col as [|[s|] col IH]; csimpl; [done| |lia].
  rewrite filter_cons_False by done. lia.
Qed.

Lemma filter_fmap_length {A B} (f : A → B) (P : B → Prop)
    `{!∀ x, Decision (P x)} (l : list A) :
  length (filter P (f <$> l)) = length (filter (λ x, P (f x)) l).
Proof.
  induction l as [|x l IH]; csimpl; [done|].
  rewrite !filter_cons. destruct (decide (P (f x))); simpl; lia.
Qed.

(** ** The tokens are the maximal runs of word characters *)

Lemma append_cons (a : ascii) (s t : string) :
  String a s +:+ t = String a (s +:+ t).
Proof. reflexivity. Qed.

Lemma append_empty_r (s : string) : s +:+ "" = s.
Proof. induction s as [|a s IH]; [done|]. by rewrite append_cons, IH. Qed.

Lemma string_of_list_ascii_snoc (l : list ascii) (c : ascii) (s : string) :
  string_of_list_ascii (l ++ [c]) +:+ s = string_of_list_ascii l +:+ String c s.
Proof.
  induction l as [|a l IH]; csimpl; [done|]. by rewrite !append_cons, IH.
Qed.

Lemma word_runs_prepend (c : ascii) (s : string) (ws : list string) :
  Text.is_word c = false → word_runs s ws → word_runs (String c s) ws.
Proof.
  intros Hc [sep Hsep|sep w rest ws' Hsep Hne Hw Hrest Hrec].
  - apply word_runs_nil. simpl. unfold outside_word at 1. by rewrite Hc.
  - change (String c (sep +:+ w +:+ rest)) with (String c sep +:+ w +:+ rest).
    apply word_runs_cons; try done.
    simpl. unfold outside_word at 1. by rewrite Hc.
Qed.

Lemma word_runs_flush (cur : list ascii) (rest : string) (ws : list string) :
  Forall (λ c, Text.is_word c = true) cur →
  starts_outside rest → word_runs rest ws →
  word_runs (string_of_list_ascii (rev cur) +:+ rest) (Text.flush cur ++ ws).
Proof.
  intros Hcur Hrest Hws. destruct cur as [|a cur]; [done|].
  apply (word_runs_cons "" _ rest ws); try done.
  - apply TextFacts.string_of_list_nonempty. simpl. by destruct (rev cur).
  - apply TextFacts.all_chars_of_list. by apply Forall_rev.
Qed.

(** The scanner, with the run under construction put back in front of
    the text that is left. *)
Lemma scan_word_runs (cur : list ascii) (s : string) :
  Forall (λ c, Text.is_word c = true) cur →
  word_runs (string_of_list_ascii (rev cur) +:+ s) (Text.scan cur s).
Proof.
  revert cur. induction s as [|c s IH]; intros cur Hcur; simpl.
  - rewrite <-(app_nil_r (Text.flush cur)).
    apply word_runs_flush; [done..|]. by apply word_runs_nil.
  - destruct (Text.is_word c) eqn:Hc.
    + rewrite <-string_of_list_ascii_snoc. apply (IH (c :: cur)).
      by constructor.
    + apply word_runs_flush; [done|exact Hc|].
      apply word_runs_prepend; [done|]. apply (IH []). constructor.
Qed.

Lemma findall_words_word_runs (s : string) :
  word_runs s (Text.findall_words s).
Proof. apply (scan_word_runs [] s). constructor. Qed.

Lemma findall_words_skip (sep s : string) :
  Text.all_chars outside_word sep = true →
  Text.findall_words (sep +:+ s) = Text.findall_words s.
Proof.
  unfold Text.findall_words. induction sep as [|a sep IH]; simpl; [done|].
  unfold outside_word at 1.
  intros [Ha%negb_true_iff Hsep]%andb_true_iff. rewrite Ha. by apply IH.
Qed.

Lemma findall_words_first_run (w rest : string) :
  w ≠ "" → Text.all_chars Text.is_word w = true → starts_outside rest →
  Text.findall_words (w +:+ rest) = w :: Text.findall_words rest.
Proof.
  intros Hne Hw Hrest. destruct rest as [|c rest]; simpl in Hrest.
  - by rewrite append_empty_r, TextFacts.findall_words_run.
  - rewrite TextFacts.findall_words_separator by done.
    rewrite TextFacts.findall_words_run by done.
    unfold Text.findall_words at 2. simpl. by rewrite Hrest.
Qed.

(** The maximal runs of a text are determined: they are the tokens. *)
Lemma word_runs_unique (s : string) (ws : list string) :
  word_runs s ws → ws = Text.findall_words s.
Proof.
  induction 1 as [sep Hsep|sep w rest ws Hsep Hne Hw Hrest _ IH].
  - symmetry. by apply TextFacts.findall_words_no_words.
  - by rewrite findall_words_skip, findall_words_first_run, IH.
Qed.

Lemma lower_map (s : string) :
  list_ascii_of_string (Text.lower s)
  = Text.char_lower <$> list_ascii_of_string s.
Proof. induction s as [|a s IH]; csimpl; [done|]. by rewrite IH. Qed.

(** The table of lower-case mappings: the capitals A..Z, and those of
    U+00C0..U+00DE (the multiplication sign is not one), move up by 32;
    every other character is its own image. *)
Lemma char_lower_table (c : ascii) :
  let n := Text.ord c in
  ((65 ≤ n ≤ 90)%N ∨ (192 ≤ n ≤ 222)%N ∧ n ≠ 215%N →
   Text.ord (Text.char_lower c) = (n + 32)%N)
  ∧ ((n < 65)%N ∨ (90 < n < 192)%N ∨ n = 215%N ∨ (222 < n)%N →
     Text.char_lower c = c).
Proof.
  destruct c as [[] [] [] [] [] [] [] []]; cbn; split; intros Hn;
    (reflexivity || (exfalso; lia)).
Qed.

(** C1. For every input value and every vocabulary (the fixed one
    included): the text is lower-cased character by character, capitals
    moving to their small letters and every other character staying; the
    tokens are the maximal runs of alphanumeric or underscore characters
    of the lower-cased text, from left to right, and no other list of
    strings is; the detector returns exactly the tokens that are members
    of the vocabulary, in their order of occurrence and with their
    repetitions; the tokens are non-empty runs of word characters; the
    result is a subsequence of the tokens, and every returned token is in
    lower case and a member of the vocabulary. *)
Theorem detect_slang_words_spec (text : cell) (vocab : gset string) :
  let lowered := Text.lower (str text) in
  let tokens := Text.findall_words lowered in
  (list_ascii_of_string lowered
   = Text.char_lower <$> list_ascii_of_string (str text)
   ∧ ∀ c : ascii,
       ((65 ≤ Text.ord c ≤ 90)%N
        ∨ (192 ≤ Text.ord c ≤ 222)%N ∧ Text.ord c ≠ 215%N →
        Text.ord (Text.char_lower c) = (Text.ord c + 32)%N)
       ∧ ((Text.ord c < 65)%N ∨ (90 < Text.ord c < 192)%N
          ∨ Text.ord c = 215%N ∨ (222 < Text.ord c)%N →
          Text.char_lower c = c))
  ∧ (word_runs lowered tokens
     ∧ ∀ ws : list string, word_runs lowered ws → ws = tokens)
  ∧ detect_slang_words text vocab = filter (λ w, w ∈ vocab) tokens
  ∧ Forall (λ w, w ≠ "" ∧ Text.all_chars Text.is_word w = true) tokens
  ∧ detect_slang_words text vocab `sublist_of` tokens
  ∧ Forall (λ w, w ∈ tokens ∧ w ∈ vocab ∧ Text.lower w = w)
      (detect_slang_words text vocab).
Proof.
  intros lowered tokens. rewrite detect_slang_words_filter.
  fold lowered. fold tokens.
  split_and!.
  - apply lower_map.
  - intros c. apply (char_lower_table c).
  - apply findall_words_word_runs.
  - intros ws. apply word_runs_unique.
  - done.
  - apply TextFacts.findall_words_runs.
  - apply sublist_filter.
  - apply Forall_forall. intros w [Hv Hw]%list_elem_of_filter.
    split_and!; [done..|].
    pose proof (TextFacts.findall_words_lower (str text)) as Hl.
    rewrite Forall_forall in Hl. by apply Hl.
Qed.

(** The tokens of a text with capitals, punctuation and an underscore. *)
Example detect_slang_words_run :
  Text.lower "Gue SUKA, banget_dong! 2x" = "gue suka, banget_dong! 2x"
  ∧ Text.findall_words "gue suka, banget_dong! 2x"
    = ["gue"; "suka"; "banget_dong"; "2x"]
  ∧ detect_slang_words (CText "Gue SUKA, banget_dong! Gue") slang_dictionary
    = ["gue"; "gue"].
Proof. split_and!; vm_compute; reflexivity. Qed.

(** ** Texts without a word of the vocabulary *)

Lemma all_chars_impl (p q : ascii → bool) (s : string) :
  (∀ c, p c = true → q c = true) →
  Text.all_chars p s = true → Text.all_chars q s = true.
Proof.
  intros Hpq. induction s as [|a s IH]; simpl; [done|].
  intros [Ha Hs]%andb_true_iff. by rewrite (Hpq a Ha), IH.
Qed.

Lemma digit_is_word (c : ascii) : Text.is_digit c = true → Text.is_word c = true.
Proof. destruct c as [[] [] [] [] [] [] [] []]; by vm_compute. Qed.

Lemma digit_lower (c : ascii) :
  Text.is_digit c = true → bool_decide (Text.char_lower c = c) = true.
Proof. destruct c as [[] [] [] [] [] [] [] []]; by vm_compute. Qed.

(** No word of the vocabulary is made of digits only. *)
Lemma slang_words_not_numeric :
  Forall (λ w, Text.all_chars Text.is_digit w = false) slang_words.
Proof. apply (bool_decide_unpack _). vm_compute. exact I. Qed.

(** X1. Under the vocabulary of the code, the detector returns the empty
    list for the empty string and for every string made of digits only. *)
Theorem detect_numeric (s : string) :
  Text.all_chars Text.is_digit s = true →
  detect_slang_words (CText s) slang_dictionary = [].
Proof.
  intros Hs. rewrite detect_slang_words_filter. simpl.
  assert (Text.lower s = s) as ->.
  { apply TextFacts.lower_fixed.
    apply (all_chars_impl Text.is_digit); [apply digit_lower|done]. }
  destruct (decide (s = "")) as [->|Hne]; [done|].
  assert (Text.all_chars Text.is_word s = true) as Hw
    by (apply (all_chars_impl Text.is_digit); [apply digit_is_word|done]).
  rewrite TextFacts.findall_words_run by done.
  rewrite filter_cons_False; [done|].
  unfold slang_dictionary. rewrite elem_of_list_to_set. intros Hin.
  pose proof slang_words_not_numeric as Hall. rewrite Forall_forall in Hall.
  specialize (Hall s Hin). congruence.
Qed.

(** The string 2024. *)
Lemma detect_numeric_witness :
  Text.all_chars Text.is_digit "2024" = true
  ∧ detect_slang_words (CText "2024") slang_dictionary = [].
Proof. split; [reflexivity|]. apply (detect_numeric "2024"). reflexivity. Defined.

(** The pandas columns on a small table. *)
Example pandas_columns_run :
  value_counts ["a"; "b"; "c"; "b"; "a"; "b"]
  = [("b", 3); ("a", 2); ("c", 1)]
  ∧ groupby_size [Some (Date 2024 9 5); None; Some (Date 2024 1 1);
                  Some (Date 2024 9 5)]
    = [(Date 2024 1 1, 1); (Date 2024 9 5, 2)]
  ∧ series_min [Some (Date 2024 9 5); None; Some (Date 2024 1 1)]
    = Some (Date 2024 1 1)
  ∧ series_max [Some (Date 2024 9 5); None; Some (Date 2024 1 1)]
    = Some (Date 2024 9 5)
  ∧ series_min [None; None] = None.
Proof. split_and!; vm_compute; reflexivity. Qed.

(** ** Per-source row counts *)

(** C2, as stated, does not hold: a row whose source cell is missing is
    counted in the total and in no per-source count. *)
Lemma sumber_berita_sum_counterexample :
  ¬ (∀ df : DataFrame,
       counter_total (sumber_berita (analyze_news_and_slang df))
       = total_berita (analyze_news_and_slang df)).
Proof.
  intros H.
  specialize
    (H [ MkRow (CText "A") None CNaN (CText "a") CNaN CNaN CNaN CNaN CNaN
           (CText "Detik");
         MkRow (CText "B") None CNaN (CText "b") CNaN CNaN CNaN CNaN CNaN
           CNaN ]).
  vm_compute in H. discriminate.
Qed.

Lemma pandas_fields_analyze (df : DataFrame) :
  total_berita (analyze_news_and_slang df) = length df
  ∧ sumber_berita (analyze_news_and_slang df)
    = value_counts (dropna (Source <$> df)).
Proof.
  unfold analyze_news_and_slang. rewrite analyze_with_loop.
  by destruct (loop_frame slang_dictionary (initial_results df) df)
    as (-> & _ & -> & _).
Qed.

Lemma missing_source_count (df : DataFrame) :
  length (dropna (Source <$> df)) + length (filter (λ rw, Source rw = CNaN) df)
  = length df.
Proof.
  pose proof (filter_fmap_length Source (λ v, v = CNaN) df) as Hna.
  pose proof (dropna_length (Source <$> df)) as Hlen.
  rewrite length_fmap in Hlen. simpl in Hna. lia.
Qed.

(** C2 (amended). For every loaded table, the sum over all sources of the
    per-source row counts plus the number of rows whose source is missing
    equals the total row count. *)
Theorem sumber_berita_sum (df : DataFrame) :
  counter_total (sumber_berita (analyze_news_and_slang df))
  + length (filter (λ rw, Source rw = CNaN) df)
  = total_berita (analyze_news_and_slang df).
Proof.
  destruct (pandas_fields_analyze df) as [-> ->].
  rewrite value_counts_total. apply missing_source_count.
Qed.

(** With a source in every row the two numbers agree. *)
Corollary per_source_counts_complete (df : DataFrame) :
  Forall (λ rw, Source rw ≠ CNaN) df →
  counter_total (sumber_berita (analyze_news_and_slang df))
  = total_berita (analyze_news_and_slang df).
Proof.
  intros Hall. destruct (pandas_fields_analyze df) as [-> ->].
  rewrite value_counts_total, <-(missing_source_count df).
  replace (filter (λ rw, Source rw = CNaN) df) with (@nil row); [simpl; lia|].
  symmetry. induction Hall as [|rw df Hrw _ IH]; [done|].
  by rewrite filter_cons, decide_False.
Qed.

(** ** The examples *)

(** C4. For every loaded table, the example list has at most 5 records;
    they are made, in table order, from the first 5 rows whose title or
    content has a vocabulary match (from all such rows when there are
    fewer); each record holds the title, the timestamp and the source of
    its row, and as matched words exactly the words detected in the title
    or in the content of that row, as a set. *)
Theorem contoh_berita_gaul_spec (df : DataFrame) :
  let matching :=
    take 5 (filter (λ rw, has_slang slang_dictionary rw = true) df) in
  let contoh := contoh_berita_gaul (analyze_news_and_slang df) in
  length contoh ≤ 5
  ∧ contoh = contoh_of slang_dictionary <$> matching
  ∧ Forall2
      (λ ex rw,
         judul ex = Judul rw ∧ waktu ex = Waktu rw ∧ source ex = Source rw
         ∧ ∀ w, w ∈ kata_gaul ex
                ↔ w ∈ title_slang slang_dictionary rw
                  ∨ w ∈ content_slang slang_dictionary rw)
      contoh matching.
Proof.
  intros matching contoh.
  assert (contoh = contoh_of slang_dictionary <$> matching) as ->.
  { unfold contoh, analyze_news_and_slang. rewrite analyze_with_loop.
    rewrite loop_contoh. simpl. unfold matching. by rewrite fmap_take. }
  split_and!; [|done|].
  - rewrite length_fmap. unfold matching. rewrite length_take. lia.
  - apply Forall2_fmap_l, Forall_Forall2_diag, Forall_forall.
    intros rw _. split_and!; [done..|]. intros w. simpl.
    by rewrite elem_of_list_to_set, elem_of_app.
Qed.

(** ** The frequency mapping *)

(** C5. For every row and every word detected at least once in the title
    and at least once in the content of the row, processing the row adds
    to the word's entry of the frequency mapping its occurrences in the
    title and its occurrences in the content, both at least one; the
    mapping grows in total by the number of title and content detections
    of the row; and over a whole table the total of the mapping, which is
    the number of all title and content detections, is at least the count
    of any single word. *)
Theorem frekuensi_counts_both_fields (res : results) (rw : row) (w : string) :
  w ∈ title_slang slang_dictionary rw →
  w ∈ content_slang slang_dictionary rw →
  let res' := process_row slang_dictionary res rw in
  counter_get (frekuensi_kata_gaul res') w
  = counter_get (frekuensi_kata_gaul res) w
    + count_of w (title_slang slang_dictionary rw)
    + count_of w (content_slang slang_dictionary rw)
  ∧ 1 ≤ count_of w (title_slang slang_dictionary rw)
  ∧ 1 ≤ count_of w (content_slang slang_dictionary rw)
  ∧ counter_total (frekuensi_kata_gaul res')
    = counter_total (frekuensi_kata_gaul res)
      + length (title_slang slang_dictionary rw)
      + length (content_slang slang_dictionary rw)
  ∧ ∀ (df : DataFrame) (v : string),
      counter_total (frekuensi_kata_gaul (analyze_news_and_slang df))
      = sum_list_with
          (λ rw, length (title_slang slang_dictionary rw)
                 + length (content_slang slang_dictionary rw)) df
      ∧ counter_get (frekuensi_kata_gaul (analyze_news_and_slang df)) v
        = sum_list_with
            (λ rw, count_of v (title_slang slang_dictionary rw)
                   + count_of v (content_slang slang_dictionary rw)) df
      ∧ counter_get (frekuensi_kata_gaul (analyze_news_and_slang df)) v
        ≤ counter_total (frekuensi_kata_gaul (analyze_news_and_slang df)).
Proof.
  intros Ht Hc res'. unfold res'. rewrite process_row_fields. simpl.
  assert (∀ l : list string, w ∈ l → 1 ≤ count_of w l) as Hcount.
  { intros l Hl. unfold count_of.
    assert (w ∈ filter (λ x, x = w) l) as Hin by (by apply list_elem_of_filter).
    destruct (filter (λ x, x = w) l); [by apply elem_of_nil in Hin|simpl; lia]. }
  split_and!; [|by apply Hcount..| |].
  - rewrite !counter_get_update. lia.
  - rewrite !counter_total_update. lia.
  - intros df v. unfold analyze_news_and_slang. rewrite analyze_with_loop.
    rewrite loop_frekuensi_total, loop_frekuensi_get. simpl.
    split_and!; [done..|].
    rewrite <-(Nat.add_0_l (sum_list_with _ df)) at 1.
    change 0 with (counter_get (frekuensi_kata_gaul (initial_results df)) v) at 1.
    rewrite <-loop_frekuensi_get.
    etrans; [apply counter_get_le_total|].
    by rewrite loop_frekuensi_total.
Qed.

(** A row with "gue" once in the title and twice in the content. *)
Lemma frekuensi_counts_both_fields_witness :
  let res := initial_results [] in
  let rw := berita "Gue banget" "gue dong gue" "Detik" in
  let w := "gue" in
  let res' := process_row slang_dictionary res rw in
  (w ∈ title_slang slang_dictionary rw ∧ w ∈ content_slang slang_dictionary rw)
  ∧ (counter_get (frekuensi_kata_gaul res') w
     = counter_get (frekuensi_kata_gaul res) w
       + count_of w (title_slang slang_dictionary rw)
       + count_of w (content_slang slang_dictionary rw)
     ∧ 1 ≤ count_of w (title_slang slang_dictionary rw)
     ∧ 1 ≤ count_of w (content_slang slang_dictionary rw)
     ∧ counter_total (frekuensi_kata_gaul res')
       = counter_total (frekuensi_kata_gaul res)
         + length (title_slang slang_dictionary rw)
         + length (content_slang slang_dictionary rw)
     ∧ ∀ (df : DataFrame) (v : string),
         counter_total (frekuensi_kata_gaul (analyze_news_and_slang df))
         = sum_list_with
             (λ rw, length (title_slang slang_dictionary rw)
                    + length (content_slang slang_dictionary rw)) df
         ∧ counter_get (frekuensi_kata_gaul (analyze_news_and_slang df)) v
           = sum_list_with
               (λ rw, count_of v (title_slang slang_dictionary rw)
                      + count_of v (content_slang slang_dictionary rw)) df
         ∧ counter_get (frekuensi_kata_gaul (analyze_news_and_slang df)) v
           ≤ counter_total (frekuensi_kata_gaul (analyze_news_and_slang df))).
Proof.
  intros res rw w res'. split.
  - split; compute_done.
  - apply (frekuensi_counts_both_fields res rw w); compute_done.
Defined.

(** The row of the witness, evaluated: "gue" is counted once from the
    title and twice from the content. *)
Example frekuensi_both_fields_run :
  frekuensi_kata_gaul
    (analyze_news_and_slang [berita "Gue banget" "gue dong gue" "Detik"])
  = [("gue", 3); ("banget", 1); ("dong", 1)].
Proof. vm_compute. reflexivity. Qed.

(** ** Row order *)

(** C6. For every table and every permutation of its rows, the total row
    count, the title-slang counter and the content-slang counter are the
    same; the slang-word frequency mapping, the per-source slang-article
    counts and the per-source row counts have the same entries (the same
    keys with the same counts); and the per-day counts are the same
    Series. *)
Theorem aggregate_counts_permutation (df df' : DataFrame) :
  df ≡ₚ df' →
  let res := analyze_news_and_slang df in
  let res' := analyze_news_and_slang df' in
  total_berita res = total_berita res'
  ∧ berita_dengan_gaul_judul res = berita_dengan_gaul_judul res'
  ∧ berita_dengan_gaul_konten res = berita_dengan_gaul_konten res'
  ∧ frekuensi_kata_gaul res ≡ₚ frekuensi_kata_gaul res'
  ∧ (∀ w, counter_get (frekuensi_kata_gaul res) w
          = counter_get (frekuensi_kata_gaul res') w)
  ∧ berita_gaul_per_sumber res ≡ₚ berita_gaul_per_sumber res'
  ∧ (∀ s, counter_get (berita_gaul_per_sumber res) s
          = counter_get (berita_gaul_per_sumber res') s)
  ∧ sumber_berita res ≡ₚ sumber_berita res'
  ∧ (∀ s, counter_get (sumber_berita res) s
          = counter_get (sumber_berita res') s)
  ∧ berita_per_hari res = berita_per_hari res'.
Proof.
  intros Hperm res res'. unfold res, res', analyze_news_and_slang.
  rewrite !analyze_with_loop.
  destruct (loop_frame slang_dictionary (initial_results df) df)
    as (-> & _ & -> & _ & ->).
  destruct (loop_frame slang_dictionary (initial_results df') df')
    as (-> & _ & -> & _ & ->).
  rewrite !loop_judul, !loop_konten. simpl.
  assert (∀ w,
    counter_get (frekuensi_kata_gaul (loop slang_dictionary (initial_results df) df)) w
    = counter_get (frekuensi_kata_gaul (loop slang_dictionary (initial_results df') df')) w)
    as Hfreq.
  { intros w. rewrite !loop_frekuensi_get. simpl. by rewrite Hperm. }
  assert (∀ s,
    counter_get (berita_gaul_per_sumber (loop slang_dictionary (initial_results df) df)) s
    = counter_get (berita_gaul_per_sumber (loop slang_dictionary (initial_results df') df')) s)
    as Hsrc.
  { intros s. rewrite !loop_per_sumber_get. simpl. by rewrite Hperm. }
  assert (value_counts (dropna (Source <$> df))
          ≡ₚ value_counts (dropna (Source <$> df'))) as Hvc.
  { apply value_counts_Permutation. unfold dropna. by rewrite Hperm. }
  split_and!.
  - by rewrite Hperm.
  - by rewrite Hperm.
  - by rewrite Hperm.
  - apply counter_ext; [apply loop_frekuensi_wf, counter_wf_nil..|done].
  - done.
  - apply counter_ext; [apply loop_per_sumber_wf, counter_wf_nil..|done].
  - done.
  - done.
  - intros s. apply counter_get_Permutation; [|done].
    eapply counter_wf_Permutation; [symmetry; apply sort_values_desc_Permutation|].
    apply counter_update_wf, counter_wf_nil.
  - apply groupby_size_Permutation. by rewrite Hperm.
Qed.

(** Two rows, swapped. *)
Lemma aggregate_counts_permutation_witness :
  let a := berita "gue" "x" "Detik" in
  let b := berita "lu lu" "gue" "Tempo" in
  let res := analyze_news_and_slang [a; b] in
  let res' := analyze_news_and_slang [b; a] in
  [a; b] ≡ₚ [b; a]
  ∧ (total_berita res = total_berita res'
     ∧ berita_dengan_gaul_judul res = berita_dengan_gaul_judul res'
     ∧ berita_dengan_gaul_konten res = berita_dengan_gaul_konten res'
     ∧ frekuensi_kata_gaul res ≡ₚ frekuensi_kata_gaul res'
     ∧ (∀ w, counter_get (frekuensi_kata_gaul res) w
             = counter_get (frekuensi_kata_gaul res') w)
     ∧ berita_gaul_per_sumber res ≡ₚ berita_gaul_per_sumber res'
     ∧ (∀ s, counter_get (berita_gaul_per_sumber res) s
             = counter_get (berita_gaul_per_sumber res') s)
     ∧ sumber_berita res ≡ₚ sumber_berita res'
     ∧ (∀ s, counter_get (sumber_berita res) s
             = counter_get (sumber_berita res') s)
     ∧ berita_per_hari res = berita_per_hari res').
Proof.
  intros a b res res'. split.
  - apply Permutation_swap.
  - apply (aggregate_counts_permutation [a; b] [b; a]), Permutation_swap.
Defined.

(** The order of the mapping does depend on the order of the rows. *)
Example frekuensi_order_depends_on_rows :
  let a := berita "gue" "x" "Detik" in
  let b := berita "lu lu" "gue" "Tempo" in
  frekuensi_kata_gaul (analyze_news_and_slang [a; b]) = [("gue", 2); ("lu", 2)]
  ∧ frekuensi_kata_gaul (analyze_news_and_slang [b; a]) = [("lu", 2); ("gue", 2)].
Proof. split; vm_compute; reflexivity. Qed.

(** ** The example scenario *)

(** C9. For a vocabulary that contains "gue" and "banget" (and none of the
    other words of the row), and a row with title "Gue Suka Banget" and
    content "Berita biasa": the detector returns ["gue"; "banget"] for the
    title and [] for the content; processing the row adds one to the
    title-slang counter, leaves the content-slang counter as it is, and
    appends an example record whose matched-word set is {"gue", "banget"}
    (the list of examples being full at 5 records, from where on it is
    left as it is); on the table made of that row alone the counters are
    1 and 0 and the record is the only example. *)
Theorem gue_suka_banget (V : gset string) (res : results) (rw : row) :
  "gue" ∈ V → "banget" ∈ V → "suka" ∉ V → "berita" ∉ V → "biasa" ∉ V →
  Judul rw = CText "Gue Suka Banget" →
  Content rw = CText "Berita biasa" →
  let ex := {| judul := CText "Gue Suka Banget"; waktu := Waktu rw;
               source := Source rw; kata_gaul := {["gue"; "banget"]} |} in
  detect_slang_words (Judul rw) V = ["gue"; "banget"]
  ∧ detect_slang_words (Content rw) V = []
  ∧ berita_dengan_gaul_judul (process_row V res rw)
    = berita_dengan_gaul_judul res + 1
  ∧ berita_dengan_gaul_konten (process_row V res rw)
    = berita_dengan_gaul_konten res
  ∧ contoh_berita_gaul (process_row V res rw)
    = (if decide (length (contoh_berita_gaul res) < 5)
       then contoh_berita_gaul res ++ [ex]
       else contoh_berita_gaul res)
  ∧ berita_dengan_gaul_judul (analyze_with V [rw]) = 1
  ∧ berita_dengan_gaul_konten (analyze_with V [rw]) = 0
  ∧ contoh_berita_gaul (analyze_with V [rw]) = [ex].
Proof.
  intros Hgue Hbanget Hsuka Hberita Hbiasa HJ HC ex.
  assert (detect_slang_words (Judul rw) V = ["gue"; "banget"]) as Ht.
  { rewrite HJ, detect_slang_words_filter.
    change (Text.findall_words _) with ["gue"; "suka"; "banget"].
    by rewrite filter_cons_True, filter_cons_False, filter_cons_True. }
  assert (detect_slang_words (Content rw) V = []) as Hc.
  { rewrite HC, detect_slang_words_filter.
    change (Text.findall_words _) with ["berita"; "biasa"].
    by rewrite !filter_cons_False. }
  assert (contoh_of V rw = ex) as Hex.
  { unfold contoh_of, ex. rewrite Ht, Hc, HJ. by f_equal. }
  assert (∀ r,
    process_row V r rw
    = let r' := with_per_sumber (counter_incr (Source rw))
                  (with_frekuensi (counter_update ["gue"; "banget"])
                     (with_judul S r)) in
      if decide (length (contoh_berita_gaul r) < 5)
      then with_contoh (λ l, l ++ [ex]) r' else r') as Hstep.
  { intros r. unfold process_row. by rewrite Ht, Hc, Hex. }
  split_and!; [done..| | | | | |].
  - rewrite Hstep. simpl. case_decide; simpl; lia.
  - rewrite Hstep. simpl. by case_decide.
  - rewrite Hstep. simpl. by case_decide.
  - unfold analyze_with, loop. simpl. by rewrite Hstep.
  - unfold analyze_with, loop. simpl. by rewrite Hstep.
  - unfold analyze_with, loop. simpl. by rewrite Hstep.
Qed.

(** The scenario with the two-word vocabulary, on a fresh result. *)
Lemma gue_suka_banget_witness :
  let V : gset string := {["gue"; "banget"]} in
  let rw := berita "Gue Suka Banget" "Berita biasa" "Detik" in
  let res := initial_results [rw] in
  let ex := {| judul := CText "Gue Suka Banget"; waktu := Waktu rw;
               source := Source rw; kata_gaul := {["gue"; "banget"]} |} in
  ("gue" ∈ V ∧ "banget" ∈ V ∧ ("suka" ∉ V) ∧ ("berita" ∉ V) ∧ ("biasa" ∉ V)
   ∧ Judul rw = CText "Gue Suka Banget" ∧ Content rw = CText "Berita biasa")
  ∧ (detect_slang_words (Judul rw) V = ["gue"; "banget"]
     ∧ detect_slang_words (Content rw) V = []
     ∧ berita_dengan_gaul_judul (process_row V res rw)
       = berita_dengan_gaul_judul res + 1
     ∧ berita_dengan_gaul_konten (process_row V res rw)
       = berita_dengan_gaul_konten res
     ∧ contoh_berita_gaul (process_row V res rw)
       = (if decide (length (contoh_berita_gaul res) < 5)
          then contoh_berita_gaul res ++ [ex]
          else contoh_berita_gaul res)
     ∧ berita_dengan_gaul_judul (analyze_with V [rw]) = 1
     ∧ berita_dengan_gaul_konten (analyze_with V [rw]) = 0
     ∧ contoh_berita_gaul (analyze_with V [rw]) = [ex]).
Proof.
  intros V rw res ex. split.
  - split_and!; compute_done.
  - apply (gue_suka_banget V res rw); compute_done.
Defined.

(** The same scenario under the vocabulary of the code. *)
Example scenario_fixed_vocabulary :
  let rw := berita "Gue Suka Banget" "Berita biasa" "Detik" in
  detect_slang_words (Judul rw) slang_dictionary = ["gue"; "banget"]
  ∧ detect_slang_words (Content rw) slang_dictionary = []
  ∧ berita_dengan_gaul_judul (analyze_news_and_slang [rw]) = 1
  ∧ berita_dengan_gaul_konten (analyze_news_and_slang [rw]) = 0
  ∧ frekuensi_kata_gaul (analyze_news_and_slang [rw])
    = [("gue", 1); ("banget", 1)]
  ∧ (kata_gaul <$> contoh_berita_gaul (analyze_news_and_slang [rw]))
    = [{["gue"; "banget"]}].
Proof. split_and!; compute_done. Qed.

(** ** The entry with a space *)

Lemma count_of_not_elem {K} `{EqDecision K} (k : K) (l : list K) :
  k ∉ l → count_of k l = 0.
Proof.
  intros Hk. unfold count_of.
  destruct (filter (λ x, x = k) l) as [|x l'] eqn:E; [done|].
  assert (x ∈ filter (λ x, x = k) l) as [-> Hx]%list_elem_of_filter
    by (rewrite E; left).
  done.
Qed.

Lemma detect_no_nonword (text : cell) (vocab : gset string) (w : string) (c : ascii) :
  Text.has_char c w = true → Text.is_word c = false →
  w ∉ detect_slang_words text vocab.
Proof.
  intros Hc Hnw. rewrite detect_slang_words_filter.
  intros [_ Hin]%list_elem_of_filter.
  by eapply TextFacts.findall_words_no_nonword.
Qed.

Lemma detect_without (text : cell) (vocab : gset string) (w : string) :
  w ∉ Text.findall_words (Text.lower (str text)) →
  detect_slang_words text (vocab ∖ {[w]}) = detect_slang_words text vocab.
Proof.
  intros Hw. rewrite !detect_slang_words_filter.
  induction (Text.findall_words (Text.lower (str text))) as [|x l IH]; [done|].
  apply not_elem_of_cons in Hw as [Hx Hl]. rewrite !filter_cons, IH by done.
  destruct (decide (x ∈ vocab)).
  - rewrite decide_True; [done|]. apply elem_of_difference. split; [done|].
    intros ->%elem_of_singleton. done.
  - rewrite decide_False; [done|]. by intros [? _]%elem_of_difference.
Qed.

Lemma loop_vocabulary_ext (V1 V2 : gset string) (res : results) (df : DataFrame) :
  (∀ text, detect_slang_words text V1 = detect_slang_words text V2) →
  loop V1 res df = loop V2 res df.
Proof.
  intros Hd. revert res. induction df as [|rw df IH]; intros res; [done|].
  rewrite !loop_cons, IH. f_equal.
  unfold process_row, contoh_of. by rewrite !Hd.
Qed.

(** C10. A string that holds a character outside the word class, such as
    a space, is never returned by the detector, whatever the text and
    the vocabulary; in particular "glow up" is never returned.  The entry
    is dead: without it the detector and the whole analysis give the same
    result on every input, and its count in the frequency mapping is zero
    for every table. *)
Theorem glow_up_never_detected :
  (∀ (text : cell) (vocab : gset string) (w : string),
     Text.has_char " " w = true → w ∉ detect_slang_words text vocab)
  ∧ (∀ (text : cell) (vocab : gset string),
       "glow up" ∉ detect_slang_words text vocab)
  ∧ "glow up" ∈ slang_dictionary
  ∧ (∀ text : cell,
       detect_slang_words text (slang_dictionary ∖ {["glow up"]})
       = detect_slang_words text slang_dictionary)
  ∧ (∀ df : DataFrame,
       analyze_with (slang_dictionary ∖ {["glow up"]}) df
       = analyze_news_and_slang df)
  ∧ (∀ df : DataFrame,
       counter_get (frekuensi_kata_gaul (analyze_news_and_slang df)) "glow up"
       = 0).
Proof.
  assert (∀ (text : cell) (vocab : gset string) (w : string),
    Text.has_char " " w = true → w ∉ detect_slang_words text vocab) as Hspace.
  { intros text vocab w Hw. by apply (detect_no_nonword text vocab w " "). }
  assert (∀ text vocab, "glow up" ∉ detect_slang_words text vocab) as Hglow.
  { intros text vocab. by apply Hspace. }
  assert (∀ text : cell,
    detect_slang_words text (slang_dictionary ∖ {["glow up"]})
    = detect_slang_words text slang_dictionary) as Hsame.
  { intros text. apply detect_without.
    by apply (TextFacts.findall_words_no_nonword _ _ " "). }
  split_and!; [done|done|compute_done|done| |].
  - intros df. unfold analyze_news_and_slang, analyze_with.
    by apply loop_vocabulary_ext.
  - intros df. unfold analyze_news_and_slang. rewrite analyze_with_loop.
    rewrite loop_frekuensi_get. simpl.
    induction df as [|rw df IH]; [done|]. simpl. rewrite IH.
    unfold title_slang, content_slang.
    by rewrite !count_of_not_elem.
Qed.

(** ** The ten slang words of the chart *)

(** C3, the selection of the slang words for their chart (lines 166 to
    169), evaluated on two files on which the run gets there and returns.
    The frame that is drawn holds the first ten entries of the frequency
    mapping in the order in which the words were first met, and is not
    sorted by count: with two words the less frequent one comes first,
    and with eleven words the most frequent one, met last, is left out. *)
Theorem top_words_first_encountered :
  (top_words <$> (main (λ _, ReadOk two_word_lines)).2)
  = Some [("gue", 1); ("lu", 2)]
  ∧ (top_words <$> (main (λ _, ReadOk eleven_word_lines)).2)
    = Some [("gue", 1); ("lu", 1); ("elu", 1); ("gw", 1); ("loe", 1);
            ("gak", 1); ("nggak", 1); ("gada", 1); ("gaada", 1); ("udah", 1)]
  ∧ ((λ res, counter_get (frekuensi_kata_gaul res) "viral")
       <$> (main (λ _, ReadOk eleven_word_lines)).2)
    = Some 3
  ∧ ((λ res, (create_visualizations res).2)
       <$> (main (λ _, ReadOk two_word_lines)).2)
    = Some true
  ∧ ((λ res, (create_visualizations res).2)
       <$> (main (λ _, ReadOk eleven_word_lines)).2)
    = Some true.
Proof. split_and!; vm_compute; reflexivity. Qed.

(** ** The loader *)

Lemma isnull_sum_app (l1 l2 : list (option date)) :
  isnull_sum (l1 ++ l2) = isnull_sum l1 + isnull_sum l2.
Proof. unfold isnull_sum. by rewrite filter_app, length_app. Qed.

Lemma reduce_dates_skip (f : date → date → date) (l1 l2 : list (option date)) :
  reduce_dates f (l1 ++ None :: l2) = reduce_dates f (l1 ++ l2).
Proof. unfold reduce_dates. by rewrite !foldl_app. Qed.

(** The minimum and the maximum are dates of the column. *)
Lemma reduce_dates_elem (f : date → date → date) (col : list (option date)) (d : date) :
  (∀ a b, f a b = a ∨ f a b = b) →
  reduce_dates f col = Some d → Some d ∈ col.
Proof.
  intros Hf. unfold reduce_dates.
  assert (∀ acc,
    foldl (λ acc v, match v, acc with
                    | None, _ => acc
                    | Some d, None => Some d
                    | Some d, Some m => Some (f m d)
                    end) acc col = Some d →
    acc = Some d ∨ Some d ∈ col) as Hgen.
  { induction col as [|v col IH]; intros acc Hfold; simpl in *; [by left|].
    apply IH in Hfold as [Hacc|Hin]; [|right; by right].
    destruct v as [x|]; [|by left]. destruct acc as [m|]; simplify_eq.
    - destruct (Hf m x) as [E|E]; rewrite E; [by left|right; by left].
    - right. by left. }
  intros Hfold. by destruct (Hgen None Hfold).
Qed.

Lemma date_min_choice (a b : date) : date_min a b = a ∨ date_min a b = b.
Proof. unfold date_min. destruct (decide (date_le a b)); auto. Qed.

Lemma date_max_choice (a b : date) : date_max a b = a ∨ date_max a b = b.
Proof. unfold date_max. destruct (decide (date_le a b)); auto. Qed.

Lemma date_min_le (a b : date) : date_le (date_min a b) a ∧ date_le (date_min a b) b.
Proof.
  unfold date_min. destruct (decide (date_le a b)) as [Hab|Hab].
  - split; [|done]. by destruct (total date_le a a).
  - destruct (total date_le a b); [done|]. split; [done|].
    by destruct (total date_le b b).
Qed.

Lemma date_max_ge (a b : date) : date_le a (date_max a b) ∧ date_le b (date_max a b).
Proof.
  unfold date_max. destruct (decide (date_le a b)) as [Hab|Hab].
  - split; [done|]. by destruct (total date_le b b).
  - destruct (total date_le a b); [done|]. split; [|done].
    by destruct (total date_le a a).
Qed.

#[global] Instance date_le_refl : Reflexive date_le.
Proof. intros a. by destruct (total date_le a a). Qed.

(** The result of [reduce_dates] is below (for the minimum) or above (for
    the maximum) every date of the column. *)
Lemma reduce_dates_bound (R : relation date) `{!Reflexive R, !Transitive R}
    (f : date → date → date) (col : list (option date)) (m : date) :
  (∀ a b, R (f a b) a ∧ R (f a b) b) →
  reduce_dates f col = Some m → ∀ d, Some d ∈ col → R m d.
Proof.
  intros Hf. unfold reduce_dates.
  assert (∀ acc,
    foldl (λ acc v, match v, acc with
                    | None, _ => acc
                    | Some d, None => Some d
                    | Some d, Some m => Some (f m d)
                    end) acc col = Some m →
    (∀ a, acc = Some a → R m a) ∧ ∀ d, Some d ∈ col → R m d) as Hgen.
  { induction col as [|v col IH]; intros acc Hfold; simpl in *.
    - split; [by intros a [= ->]%(eq_trans (eq_sym Hfold))
             |by intros d ?%elem_of_nil].
    - apply IH in Hfold as [Hacc Hcol]. destruct v as [x|].
      + destruct acc as [a|].
        * destruct (Hf a x) as [Ha Hx]. pose proof (Hacc _ eq_refl) as Hm.
          split; [intros ? [= <-]; by trans (f a x)|].
          intros d [[= ->]|Hd]%elem_of_cons; [by trans (f a x)|by apply Hcol].
        * pose proof (Hacc _ eq_refl) as Hm. split; [done|].
          intros d [[= ->]|Hd]%elem_of_cons; [done|by apply Hcol].
      + split; [done|]. intros d [[=]|Hd]%elem_of_cons. by apply Hcol. }
  intros Hfold. by apply (Hgen None).
Qed.

Lemma periode_analyze (df : DataFrame) :
  periode (analyze_news_and_slang df)
  = (series_min (Waktu <$> df), series_max (Waktu <$> df)).
Proof.
  unfold analyze_news_and_slang. rewrite analyze_with_loop.
  by destruct (loop_frame slang_dictionary (initial_results df) df)
    as (_ & -> & _).
Qed.

Lemma reduce_dates_None (f : date → date → date) (col : list (option date)) :
  reduce_dates f col = None ↔ Forall (λ v, v = None) col.
Proof.
  unfold reduce_dates.
  assert (∀ acc,
    foldl (λ acc v, match v, acc with
                    | None, _ => acc
                    | Some d, None => Some d
                    | Some d, Some m => Some (f m d)
                    end) acc col = None
    ↔ acc = None ∧ Forall (λ v, v = None) col) as Hgen.
  { induction col as [|v col IH]; intros acc; simpl.
    - split; [by intros ->|by intros [-> _]].
    - rewrite IH, Forall_cons.
      destruct v as [d|], acc as [m|]; intuition congruence. }
  rewrite Hgen. intuition congruence.
Qed.

(** When a row has a date, the two ends of the period are the least and
    the greatest date of the table. *)
Lemma periode_least_greatest (df : DataFrame) (d : date) :
  Some d ∈ Waktu <$> df →
  ∃ lo hi : date,
    periode (analyze_news_and_slang df) = (Some lo, Some hi)
    ∧ date_le lo d ∧ date_le d hi
    ∧ Some lo ∈ Waktu <$> df ∧ Some hi ∈ Waktu <$> df.
Proof.
  intros Hd. rewrite periode_analyze. unfold series_min, series_max.
  destruct (reduce_dates date_min (Waktu <$> df)) as [lo|] eqn:Hlo.
  2:{ apply reduce_dates_None in Hlo. rewrite Forall_forall in Hlo.
      by specialize (Hlo _ Hd). }
  destruct (reduce_dates date_max (Waktu <$> df)) as [hi|] eqn:Hhi.
  2:{ apply reduce_dates_None in Hhi. rewrite Forall_forall in Hhi.
      by specialize (Hhi _ Hd). }
  exists lo, hi. split_and!.
  - done.
  - by apply (reduce_dates_bound date_le date_min (Waktu <$> df) lo date_min_le).
  - apply (reduce_dates_bound (flip date_le) date_max (Waktu <$> df) hi);
      [|done..]. apply date_max_ge.
  - apply (reduce_dates_elem date_min); [apply date_min_choice|exact Hlo].
  - apply (reduce_dates_elem date_max); [apply date_max_choice|exact Hhi].
Qed.

Lemma periode_without_dates (df : DataFrame) :
  Forall (λ rw, Waktu rw = None) df →
  periode (analyze_news_and_slang df) = (None, None).
Proof.
  intros Hdf. rewrite periode_analyze. unfold series_min, series_max.
  assert (Forall (λ v, v = None) (Waktu <$> df)) as Hcol
    by (by apply Forall_fmap).
  by rewrite !(proj2 (reduce_dates_None _ _) Hcol).
Qed.

(** X3. The range of [periode] encloses every date of the table. *)
Theorem periode_encloses (df : DataFrame) (lo hi d : date) :
  periode (analyze_news_and_slang df) = (Some lo, Some hi) →
  Some d ∈ Waktu <$> df → date_le lo d ∧ date_le d hi.
Proof.
  rewrite periode_analyze. intros [= Hlo Hhi] Hd. split.
  - by apply (reduce_dates_bound date_le date_min (Waktu <$> df) lo date_min_le).
  - apply (reduce_dates_bound (flip date_le) date_max (Waktu <$> df) hi);
      [|done..]. apply date_max_ge.
Qed.

(** A table with two dated rows and one without a date. *)
Lemma periode_encloses_witness :
  let df := convert_row <$> [ baris "A" "05/09/2024" "Detik";
                              baris "B" "31/02/2024" "Tempo";
                              baris "C" "01/01/2024" "Kompas" ] in
  (periode (analyze_news_and_slang df)
   = (Some (Date 2024 1 1), Some (Date 2024 9 5))
   ∧ Some (Date 2024 9 5) ∈ Waktu <$> df)
  ∧ (date_le (Date 2024 1 1) (Date 2024 9 5)
     ∧ date_le (Date 2024 9 5) (Date 2024 9 5)).
Proof.
  intros df. split.
  - split; [reflexivity|]. left.
  - apply (periode_encloses df); [reflexivity|]. left.
Defined.


(** C7. For every input file with a timestamp value that does not parse
    under day/month/year ("31/02/2024" is one), loading succeeds and the
    value is null in the table; it adds exactly one to the count of
    invalid dates, which is the number printed in the warning; and the
    minimum and maximum timestamps computed by the aggregator are those of
    the table without that row: when another row has a date, they are the
    least and the greatest of the dates that parsed, at or below and at
    or above every one of them; when no other row has a date, both are
    null. *)
Theorem invalid_date_becomes_null (fs : filesystem) (file_path : string)
    (before after : list raw_row) (bad : raw_row) :
  fs file_path = ReadOk (before ++ bad :: after) →
  to_datetime (raw_Waktu bad) = None →
  let df1 := convert_row <$> before in
  let df2 := convert_row <$> after in
  let df := df1 ++ convert_row bad :: df2 in
  to_datetime (CText "31/02/2024") = None
  ∧ (load_data fs file_path).1 = Some df
  ∧ Waktu (convert_row bad) = None
  ∧ isnull_sum (Waktu <$> df)
    = isnull_sum (Waktu <$> df1) + 1 + isnull_sum (Waktu <$> df2)
  ∧ (load_data fs file_path).2
    = ["Peringatan: Terdapat " +:+ pretty (isnull_sum (Waktu <$> df))
       +:+ " baris dengan format tanggal tidak valid"]
  ∧ periode (analyze_news_and_slang df)
    = periode (analyze_news_and_slang (df1 ++ df2))
  ∧ (∀ d : date,
       (periode (analyze_news_and_slang df)).1 = Some d
       ∨ (periode (analyze_news_and_slang df)).2 = Some d →
       Some d ∈ Waktu <$> (df1 ++ df2))
  ∧ (∀ d : date,
       Some d ∈ Waktu <$> (df1 ++ df2) →
       ∃ lo hi : date,
         periode (analyze_news_and_slang df) = (Some lo, Some hi)
         ∧ date_le lo d ∧ date_le d hi
         ∧ Some lo ∈ Waktu <$> (df1 ++ df2)
         ∧ Some hi ∈ Waktu <$> (df1 ++ df2))
  ∧ (Forall (λ rw, Waktu rw = None) (df1 ++ df2) →
     periode (analyze_news_and_slang df) = (None, None)).
Proof.
  intros Hfs Hbad df1 df2 df.
  assert (convert_row <$> (before ++ bad :: after) = df) as Hdf
    by (by rewrite fmap_app).
  assert (Waktu <$> df = (Waktu <$> df1) ++ None :: (Waktu <$> df2)) as Hcol.
  { unfold df. rewrite fmap_app. csimpl. by rewrite Hbad. }
  assert (isnull_sum (Waktu <$> df)
          = isnull_sum (Waktu <$> df1) + 1 + isnull_sum (Waktu <$> df2)) as Hsum.
  { rewrite Hcol, isnull_sum_app. unfold isnull_sum at 2.
    rewrite filter_cons_True by done. simpl. unfold isnull_sum. lia. }
  assert (periode (analyze_news_and_slang df)
          = periode (analyze_news_and_slang (df1 ++ df2))) as Hper.
  { rewrite !periode_analyze, Hcol, fmap_app.
    unfold series_min, series_max. by rewrite !reduce_dates_skip. }
  split_and!; [done| |done|done| |done| | |].
  - unfold load_data. by rewrite Hfs, Hdf.
  - unfold load_data. rewrite Hfs, Hdf. simpl.
    rewrite decide_True by lia. done.
  - intros d. rewrite Hper, periode_analyze. simpl. intros [Hd|Hd].
    + apply (reduce_dates_elem date_min); [apply date_min_choice|exact Hd].
    + apply (reduce_dates_elem date_max); [apply date_max_choice|exact Hd].
  - intros d Hd. rewrite Hper. by apply periode_least_greatest.
  - intros Hnone. rewrite Hper. by apply periode_without_dates.
Qed.

(** A file of four lines, the second with the date 31/02/2024.  The
    period goes from the least to the greatest of the three dates that
    parse, which are not in order in the file. *)
Lemma invalid_date_becomes_null_witness :
  let before := [artikel "A" "05/03/2024" "x" "politik" "Detik"] in
  let bad := artikel "B" "31/02/2024" "x" "politik" "Tempo" in
  let after := [artikel "C" "05/09/2024" "x" "politik" "Kompas";
                artikel "D" "01/01/2024" "x" "politik" "Detik"] in
  let fs : filesystem := λ _, ReadOk (before ++ bad :: after) in
  let df1 := convert_row <$> before in
  let df2 := convert_row <$> after in
  let df := df1 ++ convert_row bad :: df2 in
  (fs "politik_merge.csv" = ReadOk (before ++ bad :: after)
   ∧ to_datetime (raw_Waktu bad) = None)
  ∧ (to_datetime (CText "31/02/2024") = None
     ∧ (load_data fs "politik_merge.csv").1 = Some df
     ∧ Waktu (convert_row bad) = None
     ∧ isnull_sum (Waktu <$> df)
       = isnull_sum (Waktu <$> df1) + 1 + isnull_sum (Waktu <$> df2)
     ∧ (load_data fs "politik_merge.csv").2
       = ["Peringatan: Terdapat " +:+ pretty (isnull_sum (Waktu <$> df))
          +:+ " baris dengan format tanggal tidak valid"]
     ∧ periode (analyze_news_and_slang df)
       = periode (analyze_news_and_slang (df1 ++ df2))
     ∧ (∀ d : date,
          (periode (analyze_news_and_slang df)).1 = Some d
          ∨ (periode (analyze_news_and_slang df)).2 = Some d →
          Some d ∈ Waktu <$> (df1 ++ df2))
     ∧ (∀ d : date,
          Some d ∈ Waktu <$> (df1 ++ df2) →
          ∃ lo hi : date,
            periode (analyze_news_and_slang df) = (Some lo, Some hi)
            ∧ date_le lo d ∧ date_le d hi
            ∧ Some lo ∈ Waktu <$> (df1 ++ df2)
            ∧ Some hi ∈ Waktu <$> (df1 ++ df2))
     ∧ (Forall (λ rw, Waktu rw = None) (df1 ++ df2) →
        periode (analyze_news_and_slang df) = (None, None)))
  ∧ (Waktu <$> df
     = [Some (Date 2024 3 5); None; Some (Date 2024 9 5);
        Some (Date 2024 1 1)]
     ∧ periode (analyze_news_and_slang df)
       = (Some (Date 2024 1 1), Some (Date 2024 9 5))
     ∧ (load_data fs "politik_merge.csv").2
       = ["Peringatan: Terdapat 1 baris dengan format tanggal tidak valid"]).
Proof.
  intros before bad after fs df1 df2 df.
  split; [split; reflexivity|]. split.
  - apply (invalid_date_becomes_null fs "politik_merge.csv" before after bad);
      reflexivity.
  - split; [reflexivity|]. split; reflexivity.
Defined.

(** The run of the witness, evaluated. *)
Example invalid_date_run :
  let fs : filesystem :=
    λ _, ReadOk [ artikel "A" "05/03/2024" "x" "politik" "Detik";
                  artikel "B" "31/02/2024" "x" "politik" "Tempo";
                  artikel "C" "05/09/2024" "x" "politik" "Kompas";
                  artikel "D" "01/01/2024" "x" "politik" "Detik" ] in
  (load_data fs "politik_merge.csv").2
  = ["Peringatan: Terdapat 1 baris dengan format tanggal tidak valid"]
  ∧ (periode <$> (main fs).2)
    = Some (Some (Date 2024 1 1), Some (Date 2024 9 5)).
Proof. split; vm_compute; reflexivity. Qed.

(** C8. For every read error, the loader returns the null result
    together with one logged message and does not raise; the run then
    prints nothing more, computes no analysis and saves no figure. *)
Theorem load_failure_skips_analysis (fs : filesystem) (e : string) :
  fs "politik_merge.csv" = ReadError e →
  (∀ (file_path e' : string),
     fs file_path = ReadError e' →
     load_data fs file_path = (None, ["Error saat memuat data: " +:+ e']))
  ∧ main fs
    = ([Stdout "Memuat dataset...";
        Stdout ("Error saat memuat data: " +:+ e)], None)
  ∧ (main fs).2 = None
  ∧ Forall (λ ev, ∀ file plots, ev ≠ SaveFig file plots) (main fs).1.
Proof.
  intros Hfs.
  assert (∀ (file_path e' : string),
    fs file_path = ReadError e' →
    load_data fs file_path = (None, ["Error saat memuat data: " +:+ e']))
    as Hload.
  { intros file_path e' He'. unfold load_data. by rewrite He'. }
  assert (main fs
    = ([Stdout "Memuat dataset...";
        Stdout ("Error saat memuat data: " +:+ e)], None)) as Hmain.
  { unfold main. by rewrite (Hload _ _ Hfs). }
  split_and!; [done|done|by rewrite Hmain|].
  rewrite Hmain. simpl. by repeat constructor.
Qed.

(** A missing file. *)
Lemma load_failure_skips_analysis_witness :
  let fs : filesystem := λ _, ReadError "No such file or directory" in
  fs "politik_merge.csv" = ReadError "No such file or directory"
  ∧ ((∀ (file_path e' : string),
        fs file_path = ReadError e' →
        load_data fs file_path = (None, ["Error saat memuat data: " +:+ e']))
     ∧ main fs
       = ([Stdout "Memuat dataset...";
           Stdout ("Error saat memuat data: " +:+ "No such file or directory")],
          None)
     ∧ (main fs).2 = None
     ∧ Forall (λ ev, ∀ file plots, ev ≠ SaveFig file plots) (main fs).1).
Proof.
  intros fs. split; [reflexivity|].
  apply (load_failure_skips_analysis fs "No such file or directory").
  reflexivity.
Defined.

(** When the file is read and has a line, the analysis runs on the
    converted lines. *)
Lemma main_analyzes (fs : filesystem) (line : raw_row) (lines : list raw_row) :
  fs "politik_merge.csv" = ReadOk (line :: lines) →
  (main fs).2
  = Some (analyze_news_and_slang (convert_row <$> line :: lines)).
Proof.
  intros Hfs. unfold main, load_data. rewrite Hfs. csimpl.
  by destruct (create_visualizations _) as [figures []].
Qed.

(** A file without lines is read, and the run ends in the analysis. *)
Lemma main_empty_table (fs : filesystem) :
  fs "politik_merge.csv" = ReadOk [] →
  main fs
  = ([Stdout "Memuat dataset...";
      Stdout "Menganalisis data dan penggunaan bahasa gaul..."], None).
Proof. intros Hfs. unfold main, load_data. by rewrite Hfs. Qed.

(** * Further properties *)

(** ** The detector on related texts *)

Lemma lower_idemp (s : string) : Text.lower (Text.lower s) = Text.lower s.
Proof.
  induction s as [|a s IH]; simpl; [done|].
  by rewrite TextFacts.char_lower_idemp, IH.
Qed.

(** A text is in lower case exactly when its parts are. *)
Lemma lower_fixed_append (s1 s2 : string) :
  Text.lower (s1 +:+ s2) = s1 +:+ s2
  ↔ Text.lower s1 = s1 ∧ Text.lower s2 = s2.
Proof.
  induction s1 as [|a s1 IH]; [by intuition|].
  rewrite append_cons. simpl. split.
  - intros [= Ha Hs]. apply IH in Hs as [H1 H2]. by rewrite Ha, H1.
  - intros [[= Ha H1] H2]. rewrite Ha. f_equal. apply IH. by rewrite H1.
Qed.

Lemma is_word_char_lower (c : ascii) :
  Text.is_word (Text.char_lower c) = Text.is_word c.
Proof. destruct c as [[] [] [] [] [] [] [] []]; reflexivity. Qed.

(** X4. The detector does not see the case of the text: on a text and on
    its lower-casing it returns the same list, for every vocabulary. *)
Theorem detect_case_insensitive (s : string) (V : gset string) :
  detect_slang_words (CText (Text.lower s)) V = detect_slang_words (CText s) V.
Proof. rewrite !detect_slang_words_filter. simpl. by rewrite lower_idemp. Qed.

(** X5. In a text in lower case, a character outside the word class
    cuts the text in two for the detector: what it returns on the whole
    text is what it returns on the part before the character followed by
    what it returns on the part after it. *)
Theorem detect_across_separator (s1 s2 : string) (c : ascii) (V : gset string) :
  Text.is_word c = false →
  Text.lower (s1 +:+ String c s2) = s1 +:+ String c s2 →
  detect_slang_words (CText (s1 +:+ String c s2)) V
  = detect_slang_words (CText s1) V ++ detect_slang_words (CText s2) V.
Proof.
  intros Hc Hlow.
  pose proof Hlow as [H1 [= _ H2]]%lower_fixed_append.
  rewrite !detect_slang_words_filter. simpl str.
  rewrite Hlow, H1, H2, TextFacts.findall_words_separator by done.
  apply filter_app.
Qed.

(** A title, a comma, a content. *)
Lemma detect_across_separator_witness :
  (Text.is_word "," = false
   ∧ Text.lower ("gue suka" +:+ String "," "banget dong")
     = "gue suka" +:+ String "," "banget dong")
  ∧ detect_slang_words (CText ("gue suka" +:+ String "," "banget dong"))
      slang_dictionary
    = detect_slang_words (CText "gue suka") slang_dictionary
      ++ detect_slang_words (CText "banget dong") slang_dictionary.
Proof.
  split; [split; reflexivity|].
  apply (detect_across_separator "gue suka" "banget dong" ","); reflexivity.
Defined.

Lemma lower_concat_fixed (ws : list string) :
  Forall (λ w, Text.lower w = w) ws →
  Text.lower (String.concat " " ws) = String.concat " " ws.
Proof.
  induction 1 as [|w ws Hw Hws IH]; [done|].
  destruct ws as [|w' ws]; [done|].
  change (String.concat " " (w :: w' :: ws))
    with (w +:+ String " " (String.concat " " (w' :: ws))).
  apply lower_fixed_append. split; [done|].
  change (String " " (Text.lower (String.concat " " (w' :: ws)))
          = String " " (String.concat " " (w' :: ws))).
  by rewrite IH.
Qed.

(** The tokens of words joined by single spaces are the words. *)
Lemma findall_words_concat (ws : list string) :
  Forall (λ w, w ≠ "" ∧ Text.all_chars Text.is_word w = true) ws →
  Text.findall_words (String.concat " " ws) = ws.
Proof.
  induction 1 as [|w ws [Hne Hw] Hws IH]; [done|].
  destruct ws as [|w' ws]; [by apply TextFacts.findall_words_run|].
  change (String.concat " " (w :: w' :: ws))
    with (w +:+ String " " (String.concat " " (w' :: ws))).
  rewrite TextFacts.findall_words_separator by done.
  by rewrite TextFacts.findall_words_run, IH.
Qed.

(** X6. Running the detector on its own output, the returned words joined
    by single spaces, returns that output again. *)
Theorem detect_own_output (text : cell) (V : gset string) :
  detect_slang_words (CText (String.concat " " (detect_slang_words text V))) V
  = detect_slang_words text V.
Proof.
  rewrite (detect_slang_words_filter (CText _)). simpl.
  pose proof (TextFacts.findall_words_lower (str text)) as Hlow.
  pose proof (TextFacts.findall_words_runs (Text.lower (str text))) as Hrun.
  rewrite (detect_slang_words_filter text).
  set (tokens := Text.findall_words (Text.lower (str text))) in *.
  assert (Forall (λ w, Text.lower w = w) (filter (λ w, w ∈ V) tokens)) as Hlow'.
  { apply Forall_forall. intros w [_ Hin]%list_elem_of_filter.
    rewrite Forall_forall in Hlow. by apply Hlow. }
  assert (Forall (λ w, w ≠ "" ∧ Text.all_chars Text.is_word w = true)
            (filter (λ w, w ∈ V) tokens)) as Hrun'.
  { apply Forall_forall. intros w [_ Hin]%list_elem_of_filter.
    rewrite Forall_forall in Hrun. by apply Hrun. }
  rewrite lower_concat_fixed, findall_words_concat by done.
  rewrite list_filter_filter. apply list_filter_iff.
  intros w. split; [by intros [? _]|done].
Qed.

(** X7. With a vocabulary that is part of another one the detector
    returns, of what it returns with the larger one, the words of the
    smaller one, so never more; with the empty vocabulary it returns
    nothing. *)
Theorem detect_sub_vocabulary (text : cell) (V V' : gset string) :
  V ⊆ V' →
  detect_slang_words text V = filter (λ w, w ∈ V) (detect_slang_words text V')
  ∧ detect_slang_words text V `sublist_of` detect_slang_words text V'
  ∧ detect_slang_words text ∅ = [].
Proof.
  intros Hsub.
  assert (detect_slang_words text V
          = filter (λ w, w ∈ V) (detect_slang_words text V')) as Heq.
  { rewrite !detect_slang_words_filter, list_filter_filter.
    apply list_filter_iff. intros w. split; [|by intros [? _]].
    intros Hw. split; [done|]. by apply Hsub. }
  split_and!; [done|rewrite Heq; apply sublist_filter|].
  rewrite detect_slang_words_filter.
  induction (Text.findall_words _) as [|w ws IH]; [done|].
  rewrite filter_cons_False; [done|]. apply not_elem_of_empty.
Qed.

(** The one-word vocabulary inside the vocabulary of the code. *)
Lemma detect_sub_vocabulary_witness :
  let text := CText "Gue suka banget, gue!" in
  let V : gset string := {["gue"]} in
  V ⊆ slang_dictionary
  ∧ (detect_slang_words text V
     = filter (λ w, w ∈ V) (detect_slang_words text slang_dictionary)
     ∧ detect_slang_words text V
       `sublist_of` detect_slang_words text slang_dictionary
     ∧ detect_slang_words text ∅ = []).
Proof.
  intros text V.
  assert (V ⊆ slang_dictionary) as Hsub by compute_done.
  split; [exact Hsub|]. exact (detect_sub_vocabulary text V slang_dictionary Hsub).
Defined.

(** ** Rows without a match *)

Lemma truthy_false {A} (l : list A) : truthy l = false → l = [].
Proof. by destruct l. Qed.

Lemma process_row_no_slang (V : gset string) (res : results) (rw : row) :
  has_slang V rw = false → process_row V res rw = res.
Proof.
  intros [Ht%truthy_false Hc%truthy_false]%orb_false_iff.
  unfold title_slang, content_slang in *. unfold process_row.
  by rewrite Ht, Hc.
Qed.

Lemma loop_slang_rows (V : gset string) (res : results) (df : DataFrame) :
  loop V res df = loop V res (filter (λ rw, has_slang V rw = true) df).
Proof.
  revert res. induction df as [|rw df IH]; intros res; [done|].
  rewrite filter_cons. destruct (has_slang V rw) eqn:Hs.
  - rewrite decide_True by done. rewrite !loop_cons. apply IH.
  - rewrite decide_False by done. rewrite loop_cons, process_row_no_slang by done.
    apply IH.
Qed.

Lemma process_row_tally (V : gset string) (r r' : results) (rw : row) :
  same_tally r r' → same_tally (process_row V r rw) (process_row V r' rw).
Proof.
  intros (Hj & Hk & Hf & Hs & Hc). rewrite !process_row_fields.
  unfold same_tally. simpl. by rewrite Hj, Hk, Hf, Hs, Hc.
Qed.

Lemma loop_tally (V : gset string) (r r' : results) (df : DataFrame) :
  same_tally r r' → same_tally (loop V r df) (loop V r' df).
Proof.
  revert r r'. induction df as [|rw df IH]; intros r r' Hr; [done|].
  rewrite !loop_cons. by apply IH, process_row_tally.
Qed.

(** X8. Rows without a match in title and content do not touch the slang
    statistics: the two counters, the frequency mapping, the per-source
    slang counts of the sources that are texts, and the examples of a
    table are those of the table reduced to its rows with a match, entry
    for entry and in the same order. *)
Theorem slang_statistics_of_slang_rows (df : DataFrame) :
  let df' := filter (λ rw, has_slang slang_dictionary rw = true) df in
  let res := analyze_news_and_slang df in
  let res' := analyze_news_and_slang df' in
  berita_dengan_gaul_judul res = berita_dengan_gaul_judul res'
  ∧ berita_dengan_gaul_konten res = berita_dengan_gaul_konten res'
  ∧ frekuensi_kata_gaul res = frekuensi_kata_gaul res'
  ∧ text_entries (berita_gaul_per_sumber res)
    = text_entries (berita_gaul_per_sumber res')
  ∧ contoh_berita_gaul res = contoh_berita_gaul res'.
Proof.
  intros df' res res'. unfold res, res', analyze_news_and_slang.
  rewrite !analyze_with_loop.
  rewrite (loop_slang_rows slang_dictionary (initial_results df) df).
  fold df'.
  destruct (loop_tally slang_dictionary (initial_results df)
              (initial_results df') df') as (Hj & Hk & Hf & Hs & Hc);
    [by unfold same_tally|].
  by rewrite Hj, Hk, Hf, Hs, Hc.
Qed.

(** The statistics of a table with a row without a match, evaluated. *)
Example slang_statistics_run :
  let res :=
    analyze_news_and_slang
      [berita "Gue suka" "x" "Detik"; berita "Kabar" "biasa" "Tempo";
       berita "Kabar" "banget dong" "Detik"] in
  berita_dengan_gaul_judul res = 1
  ∧ berita_dengan_gaul_konten res = 1
  ∧ frekuensi_kata_gaul res = [("gue", 1); ("banget", 1); ("dong", 1)]
  ∧ text_entries (berita_gaul_per_sumber res) = [("Detik", 2)].
Proof. split_and!; vm_compute; reflexivity. Qed.

(** X9. A missing cell is read as the text "nan": the detector returns
    ["nan"] on it when the vocabulary holds that word and nothing
    otherwise.  Under the vocabulary of the code a row whose title and
    content are both missing leaves the result as it is. *)
Theorem missing_text_is_no_slang (res : results) (rw : row) :
  Judul rw = CNaN → Content rw = CNaN →
  (∀ V : gset string,
     detect_slang_words CNaN V = if decide ("nan" ∈ V) then ["nan"] else [])
  ∧ process_row slang_dictionary res rw = res.
Proof.
  intros HJ HC.
  assert (∀ V : gset string,
    detect_slang_words CNaN V = if decide ("nan" ∈ V) then ["nan"] else [])
    as Hnan.
  { intros V. rewrite detect_slang_words_filter.
    change (Text.findall_words _) with ["nan"]. rewrite filter_cons.
    by destruct (decide ("nan" ∈ V)). }
  split; [done|]. apply process_row_no_slang.
  unfold has_slang, title_slang, content_slang.
  rewrite HJ, HC, Hnan. rewrite decide_False; [done|]. compute_done.
Qed.

(** A line with a source only. *)
Lemma missing_text_is_no_slang_witness :
  let rw := MkRow CNaN None CNaN CNaN CNaN CNaN CNaN CNaN CNaN (CText "Detik") in
  let res := initial_results [rw] in
  (Judul rw = CNaN ∧ Content rw = CNaN)
  ∧ ((∀ V : gset string,
        detect_slang_words CNaN V = if decide ("nan" ∈ V) then ["nan"] else [])
     ∧ process_row slang_dictionary res rw = res).
Proof.
  intros rw res. split; [by split|].
  apply (missing_text_is_no_slang res rw); reflexivity.
Defined.

(** ** Bounds between the counters *)

Lemma loop_per_sumber_total (V : gset string) (res : results) (df : DataFrame) :
  counter_total (berita_gaul_per_sumber (loop V res df))
  = counter_total (berita_gaul_per_sumber res)
    + length (filter (λ rw, has_slang V rw = true) df).
Proof.
  revert res. induction df as [|rw df IH]; intros res; [simpl; lia|].
  rewrite loop_cons, IH, process_row_fields, filter_cons. simpl.
  destruct (has_slang V rw); simpl; [|lia].
  rewrite counter_total_incr. lia.
Qed.

Lemma slang_rows_bounds (V : gset string) (df : DataFrame) :
  let a := length (filter (λ rw, truthy (title_slang V rw) = true) df) in
  let b := length (filter (λ rw, truthy (content_slang V rw) = true) df) in
  let n := length (filter (λ rw, has_slang V rw = true) df) in
  a ≤ n ∧ b ≤ n ∧ n ≤ a + b ∧ n ≤ length df.
Proof.
  induction df as [|rw df IH]; simpl; [lia|].
  rewrite !filter_cons. unfold has_slang in *.
  destruct (truthy (title_slang V rw)), (truthy (content_slang V rw));
    simpl in *; lia.
Qed.

(** X10. The number of rows with a match, which is the total of the
    per-source slang counts, is at least each of the title-slang and
    content-slang counters, at most their sum, and at most the number of
    rows. *)
Theorem slang_counters_bounds (df : DataFrame) :
  let res := analyze_news_and_slang df in
  let n := counter_total (berita_gaul_per_sumber res) in
  n = length (filter (λ rw, has_slang slang_dictionary rw = true) df)
  ∧ berita_dengan_gaul_judul res ≤ n
  ∧ berita_dengan_gaul_konten res ≤ n
  ∧ n ≤ berita_dengan_gaul_judul res + berita_dengan_gaul_konten res
  ∧ n ≤ total_berita res.
Proof.
  intros res n. unfold n, res, analyze_news_and_slang.
  rewrite analyze_with_loop, loop_per_sumber_total, loop_judul, loop_konten.
  destruct (loop_frame slang_dictionary (initial_results df) df) as (-> & _).
  simpl. pose proof (slang_rows_bounds slang_dictionary df) as Hb.
  simpl in Hb. lia.
Qed.

Lemma slang_counters_bounds_aux (df : DataFrame) :
  berita_dengan_gaul_konten (analyze_news_and_slang df) ≤ length df
  ∧ total_berita (analyze_news_and_slang df) = length df.
Proof.
  unfold analyze_news_and_slang.
  rewrite analyze_with_loop, loop_konten.
  destruct (loop_frame slang_dictionary (initial_results df) df) as (-> & _).
  simpl. pose proof (slang_rows_bounds slang_dictionary df) as Hb.
  simpl in Hb. lia.
Qed.

(** X11. The pie chart is given two numbers: the rows with a match in
    their content, and the other rows.  Neither is negative, and they add
    up to the number of rows of the table. *)
Theorem pie_slices (df : DataFrame) :
  ∃ a b : Z,
    pie_sizes (analyze_news_and_slang df) = [a; b]
    ∧ a = Z.of_nat
            (length (filter
                       (λ rw, truthy (content_slang slang_dictionary rw) = true)
                       df))
    ∧ (0 ≤ a)%Z ∧ (0 ≤ b)%Z ∧ (a + b)%Z = Z.of_nat (length df).
Proof.
  pose proof (slang_counters_bounds_aux df) as [Hk Ht].
  eexists _, _. split; [reflexivity|]. split.
  - unfold analyze_news_and_slang. by rewrite analyze_with_loop, loop_konten.
  - lia.
Qed.

(** Two rows, one of them with a match in its content. *)
Example pie_slices_run :
  pie_sizes (analyze_news_and_slang
               [berita "Kabar" "gue dong" "Detik";
                berita "Kabar" "biasa" "Tempo"])
  = [1%Z; 1%Z].
Proof. reflexivity. Qed.

(** ** The entries of the mappings *)

Lemma sum_list_with_pos {A} (f : A → nat) (l : list A) :
  0 < sum_list_with f l → ∃ x, x ∈ l ∧ 0 < f x.
Proof.
  induction l as [|x l IH]; simpl; [lia|]. intros Hpos.
  destruct (decide (0 < f x)) as [Hx|Hx].
  - exists x. split; [left|done].
  - destruct IH as (y & Hy & Hfy); [lia|]. exists y. split; [by right|done].
Qed.

Lemma count_of_pos_elem {K} `{EqDecision K} (k : K) (l : list K) :
  0 < count_of k l → k ∈ l.
Proof.
  intros Hpos. destruct (decide (k ∈ l)) as [|Hk]; [done|].
  rewrite (count_of_not_elem k l Hk) in Hpos. lia.
Qed.

Lemma count_of_app {K} `{EqDecision K} (k : K) (l1 l2 : list K) :
  count_of k (l1 ++ l2) = count_of k l1 + count_of k l2.
Proof. unfold count_of. by rewrite filter_app, length_app. Qed.

Lemma detect_elem_vocab (text : cell) (V : gset string) (w : string) :
  w ∈ detect_slang_words text V → w ∈ V.
Proof.
  rewrite detect_slang_words_filter. by intros [? _]%list_elem_of_filter.
Qed.

Lemma counter_get_value_counts {K} `{EqDecision K} (l : list K) (k : K) :
  counter_get (value_counts l) k = count_of k l.
Proof.
  unfold value_counts.
  rewrite <-(counter_get_Permutation (counter_update l []) _ k);
    [apply (counter_get_update l [])
    |apply counter_update_wf, counter_wf_nil
    |symmetry; apply sort_values_desc_Permutation].
Qed.

Lemma counter_get_groupby (col : list (option date)) (d : date) :
  counter_get (groupby_size col) d = count_of d (omap id col).
Proof.
  unfold groupby_size.
  rewrite <-(counter_get_Permutation (counter_update (omap id col) []) _ d);
    [apply (counter_get_update (omap id col) [])
    |apply counter_update_wf, counter_wf_nil
    |symmetry; apply merge_sort_Permutation].
Qed.

Lemma count_of_sources (df : DataFrame) (s : string) :
  count_of s (dropna (Source <$> df))
  = length (filter (λ rw, Source rw = CText s) df).
Proof.
  unfold count_of, dropna. induction df as [|rw df IH]; [done|].
  csimpl. rewrite (filter_cons _ rw). destruct (Source rw) as [s'|]; simpl.
  - rewrite filter_cons. destruct (decide (s' = s)) as [->|Hne]; simpl;
      try (rewrite decide_True by done); try (rewrite decide_False by congruence);
      simpl; by rewrite ?IH.
  - try (rewrite decide_False by done). done.
Qed.

Lemma count_of_dates (df : DataFrame) (d : date) :
  count_of d (omap id (Waktu <$> df))
  = length (filter (λ rw, Waktu rw = Some d) df).
Proof.
  unfold count_of. induction df as [|rw df IH]; [done|].
  csimpl. rewrite (filter_cons _ rw). destruct (Waktu rw) as [d'|]; simpl.
  - rewrite filter_cons. destruct (decide (d' = d)) as [->|Hne]; simpl;
      try (rewrite decide_True by done); try (rewrite decide_False by congruence);
      simpl; by rewrite ?IH.
  - try (rewrite decide_False by done). done.
Qed.

(** X12. The frequency mapping holds no word twice, and every entry of
    it is a word of the vocabulary that the detector returned for the
    title or the content of some row, with a count of at least one that
    is the number of its detections over all titles and contents. *)
Theorem frekuensi_entries (df : DataFrame) (w : string) (n : nat) :
  (w, n) ∈ frekuensi_kata_gaul (analyze_news_and_slang df) →
  NoDup ((frekuensi_kata_gaul (analyze_news_and_slang df)).*1)
  ∧ 1 ≤ n
  ∧ w ∈ slang_dictionary
  ∧ n = sum_list_with
          (λ rw, count_of w (title_slang slang_dictionary rw)
                 + count_of w (content_slang slang_dictionary rw)) df
  ∧ ∃ rw, rw ∈ df
          ∧ (w ∈ title_slang slang_dictionary rw
             ∨ w ∈ content_slang slang_dictionary rw).
Proof.
  unfold analyze_news_and_slang. rewrite analyze_with_loop. intros Hin.
  pose proof (loop_frekuensi_wf slang_dictionary (initial_results df) df
                counter_wf_nil) as Hwf.
  apply (counter_elem_of _ _ _ Hwf) in Hin as [Hpos Hget].
  rewrite loop_frekuensi_get in Hget. simpl in Hget.
  assert (∃ rw, rw ∈ df
                ∧ (w ∈ title_slang slang_dictionary rw
                   ∨ w ∈ content_slang slang_dictionary rw)) as Hrow.
  { destruct (sum_list_with_pos _ df ltac:(rewrite Hget; exact Hpos))
      as (rw & Hrw & Hf).
    exists rw. split; [done|].
    destruct (decide (0 < count_of w (title_slang slang_dictionary rw)));
      [left|right]; apply count_of_pos_elem; lia. }
  split_and!; [apply Hwf|lia| |done|done].
  destruct Hrow as (rw & _ & [Hw|Hw]); by apply detect_elem_vocab in Hw.
Qed.

(** A row with "gue" once in the title and twice in the content. *)
Lemma frekuensi_entries_witness :
  let df := [berita "Gue banget" "gue dong gue" "Detik"] in
  ("gue", 3) ∈ frekuensi_kata_gaul (analyze_news_and_slang df)
  ∧ (NoDup ((frekuensi_kata_gaul (analyze_news_and_slang df)).*1)
     ∧ 1 ≤ 3
     ∧ "gue" ∈ slang_dictionary
     ∧ 3 = sum_list_with
             (λ rw, count_of "gue" (title_slang slang_dictionary rw)
                    + count_of "gue" (content_slang slang_dictionary rw)) df
     ∧ ∃ rw, rw ∈ df
             ∧ ("gue" ∈ title_slang slang_dictionary rw
                ∨ "gue" ∈ content_slang slang_dictionary rw)).
Proof.
  intros df.
  assert (("gue", 3) ∈ frekuensi_kata_gaul (analyze_news_and_slang df)) as Hin
    by (vm_compute; left).
  split; [exact Hin|]. exact (frekuensi_entries df "gue" 3 Hin).
Defined.

(** X13. For every source, the per-source row count is the number of
    rows with that source and the per-source slang count is the number of
    those rows that have a match, so the latter never exceeds the
    former. *)
Theorem slang_per_source_bounded (df : DataFrame) (s : string) :
  let res := analyze_news_and_slang df in
  counter_get (sumber_berita res) s
  = length (filter (λ rw, Source rw = CText s) df)
  ∧ counter_get (berita_gaul_per_sumber res) (CText s)
    = length (filter (λ rw, has_slang slang_dictionary rw = true
                            ∧ Source rw = CText s) df)
  ∧ counter_get (berita_gaul_per_sumber res) (CText s)
    ≤ counter_get (sumber_berita res) s.
Proof.
  intros res.
  assert (counter_get (sumber_berita res) s
          = length (filter (λ rw, Source rw = CText s) df)) as Hrows.
  { unfold res. destruct (pandas_fields_analyze df) as [_ ->].
    by rewrite counter_get_value_counts, count_of_sources. }
  assert (∀ c, counter_get (berita_gaul_per_sumber res) c
               = length (filter (λ rw, has_slang slang_dictionary rw = true
                                       ∧ Source rw = c) df)) as Hslang.
  { intros c. unfold res, analyze_news_and_slang.
    by rewrite analyze_with_loop, loop_per_sumber_get. }
  split_and!; [done|apply Hslang|].
  rewrite Hrows, Hslang.
  rewrite <-(list_filter_filter
               (λ rw, has_slang slang_dictionary rw = true)
               (λ rw, Source rw = CText s) df).
  apply length_filter.
Qed.

(** ** The result in closed form *)

Lemma analyze_fields (df : DataFrame) :
  let res := analyze_news_and_slang df in
  total_berita res = length df
  ∧ berita_dengan_gaul_judul res
    = length (filter (λ rw, truthy (title_slang slang_dictionary rw) = true) df)
  ∧ berita_dengan_gaul_konten res
    = length (filter (λ rw, truthy (content_slang slang_dictionary rw) = true) df)
  ∧ (∀ w, counter_get (frekuensi_kata_gaul res) w
          = sum_list_with
              (λ rw, count_of w (title_slang slang_dictionary rw)
                     + count_of w (content_slang slang_dictionary rw)) df)
  ∧ (∀ s, counter_get (berita_gaul_per_sumber res) (CText s)
          = length (filter (λ rw, has_slang slang_dictionary rw = true
                                  ∧ Source rw = CText s) df))
  ∧ (∀ s, counter_get (sumber_berita res) s
          = length (filter (λ rw, Source rw = CText s) df))
  ∧ (∀ d, counter_get (berita_per_hari res) d
          = length (filter (λ rw, Waktu rw = Some d) df))
  ∧ berita_per_hari res = groupby_size (Waktu <$> df)
  ∧ contoh_berita_gaul res
    = take 5 (contoh_of slang_dictionary
                <$> filter (λ rw, has_slang slang_dictionary rw = true) df).
Proof.
  intros res. unfold res, analyze_news_and_slang. rewrite analyze_with_loop.
  destruct (loop_frame slang_dictionary (initial_results df) df)
    as (-> & _ & -> & _ & ->).
  rewrite loop_judul, loop_konten, loop_contoh. simpl.
  split_and!; try done.
  - intros w. by rewrite loop_frekuensi_get.
  - intros s. by rewrite loop_per_sumber_get.
  - intros s. by rewrite counter_get_value_counts, count_of_sources.
  - intros d. by rewrite counter_get_groupby, count_of_dates.
Qed.

(** ** Articles per day *)

Lemma strict_sorted_keys (l : list (date * nat)) :
  StronglySorted key_le l → NoDup (l.*1) →
  StronglySorted (λ a b, date_le a.1 b.1 ∧ a.1 ≠ b.1) l.
Proof.
  induction 1 as [|x l Hl IH Hall]; csimpl; [constructor|].
  intros [Hx Hnd]%NoDup_cons. constructor; [by apply IH|].
  rewrite Forall_forall in Hall. apply Forall_forall. intros y Hy.
  split; [by apply Hall|]. intros Heq. apply Hx. rewrite Heq.
  apply list_elem_of_fmap. by exists y.
Qed.

Lemma groupby_size_wf (col : list (option date)) : counter_wf (groupby_size col).
Proof.
  unfold groupby_size.
  eapply counter_wf_Permutation; [symmetry; apply merge_sort_Permutation|].
  apply counter_update_wf, counter_wf_nil.
Qed.

Lemma valid_dates_length (col : list (option date)) :
  length (omap id col) + isnull_sum col = length col.
Proof.
  unfold isnull_sum. induction col as [|[d|] col IH]; csimpl; [done|..].
  - rewrite ?filter_cons_False by done. lia.
  - rewrite ?filter_cons_True by done. simpl. lia.
Qed.

(** X14. The per-day counts come in strictly ascending order of the date,
    so no date twice; the count of a date is the number of rows with that
    date and is never zero in the Series; rows with a null date belong to
    no day, so the counts add up to the number of rows less the number of
    null dates. *)
Theorem berita_per_hari_spec (df : DataFrame) :
  let per_hari := berita_per_hari (analyze_news_and_slang df) in
  StronglySorted (λ a b, date_le a.1 b.1 ∧ a.1 ≠ b.1) per_hari
  ∧ (∀ d, counter_get per_hari d = length (filter (λ rw, Waktu rw = Some d) df))
  ∧ Forall (λ e, 1 ≤ e.2) per_hari
  ∧ counter_total per_hari + isnull_sum (Waktu <$> df) = length df.
Proof.
  intros per_hari.
  destruct (analyze_fields df) as (_ & _ & _ & _ & _ & _ & Hget & Heq & _).
  simpl in Hget, Heq. fold per_hari in Hget, Heq.
  pose proof (groupby_size_wf (Waktu <$> df)) as [Hnd Hpos].
  rewrite <-Heq in Hnd, Hpos.
  split_and!; [|done|done|].
  - apply strict_sorted_keys; [|done]. rewrite Heq. unfold groupby_size.
    apply StronglySorted_merge_sort; apply _.
  - rewrite Heq. unfold groupby_size, counter_total.
    rewrite merge_sort_Permutation.
    pose proof (counter_total_update (omap id (Waktu <$> df)) []) as Ht.
    unfold counter_total in Ht. rewrite Ht. simpl.
    pose proof (valid_dates_length (Waktu <$> df)) as Hlen.
    rewrite length_fmap in Hlen. lia.
Qed.

(** ** Two tables, one after the other *)

Lemma take_take_app {A} (n : nat) (l1 l2 : list A) :
  take n (take n l1 ++ take n l2) = take n (l1 ++ l2).
Proof.
  rewrite !take_app, !take_take, length_take.
  replace (n `min` n) with n by lia. f_equal.
  destruct (decide (length l1 ≤ n)).
  - replace (n `min` length l1) with (length l1) by lia.
    f_equal. lia.
  - replace (n - n `min` length l1) with 0 by lia.
    replace (n - length l1) with 0 by lia. done.
Qed.

(** X15. The analysis of two tables put one after the other adds up: the
    total, the title-slang and content-slang counters, every word's
    frequency, every source's slang count and row count and every day's
    count are the sums of those of the two tables, and the examples are
    the first five of the examples of the first table followed by those
    of the second. *)
Theorem analysis_of_concatenation (df1 df2 : DataFrame) :
  let res := analyze_news_and_slang (df1 ++ df2) in
  let res1 := analyze_news_and_slang df1 in
  let res2 := analyze_news_and_slang df2 in
  total_berita res = total_berita res1 + total_berita res2
  ∧ berita_dengan_gaul_judul res
    = berita_dengan_gaul_judul res1 + berita_dengan_gaul_judul res2
  ∧ berita_dengan_gaul_konten res
    = berita_dengan_gaul_konten res1 + berita_dengan_gaul_konten res2
  ∧ (∀ w, counter_get (frekuensi_kata_gaul res) w
          = counter_get (frekuensi_kata_gaul res1) w
            + counter_get (frekuensi_kata_gaul res2) w)
  ∧ (∀ s, counter_get (berita_gaul_per_sumber res) (CText s)
          = counter_get (berita_gaul_per_sumber res1) (CText s)
            + counter_get (berita_gaul_per_sumber res2) (CText s))
  ∧ (∀ s, counter_get (sumber_berita res) s
          = counter_get (sumber_berita res1) s
            + counter_get (sumber_berita res2) s)
  ∧ (∀ d, counter_get (berita_per_hari res) d
          = counter_get (berita_per_hari res1) d
            + counter_get (berita_per_hari res2) d)
  ∧ contoh_berita_gaul res
    = take 5 (contoh_berita_gaul res1 ++ contoh_berita_gaul res2).
Proof.
  intros res res1 res2. unfold res, res1, res2.
  destruct (analyze_fields (df1 ++ df2))
    as (-> & -> & -> & Hf & Hs & Hr & Hd & _ & ->).
  destruct (analyze_fields df1) as (-> & -> & -> & Hf1 & Hs1 & Hr1 & Hd1 & _ & ->).
  destruct (analyze_fields df2) as (-> & -> & -> & Hf2 & Hs2 & Hr2 & Hd2 & _ & ->).
  split_and!.
  - by rewrite length_app.
  - by rewrite filter_app, length_app.
  - by rewrite filter_app, length_app.
  - intros w. by rewrite Hf, Hf1, Hf2, sum_list_with_app.
  - intros s. by rewrite Hs, Hs1, Hs2, filter_app, length_app.
  - intros s. by rewrite Hr, Hr1, Hr2, filter_app, length_app.
  - intros d. by rewrite Hd, Hd1, Hd2, filter_app, length_app.
  - by rewrite take_take_app, filter_app, fmap_app.
Qed.

(** ** The period when dates are missing *)

(** X16. The period is null at both ends exactly when no row has a date
    (every date failed to parse or is missing); otherwise both ends are
    dates of the table and the first is not after the second. *)
Theorem periode_null_or_range (df : DataFrame) :
  let p := periode (analyze_news_and_slang df) in
  (p = (None, None) ↔ Forall (λ rw, Waktu rw = None) df)
  ∧ (p.1 = None ↔ p.2 = None)
  ∧ ∀ lo hi, p = (Some lo, Some hi) →
      date_le lo hi ∧ Some lo ∈ Waktu <$> df ∧ Some hi ∈ Waktu <$> df.
Proof.
  intros p. unfold p. rewrite periode_analyze. simpl.
  pose proof (reduce_dates_None date_min (Waktu <$> df)) as Hmin.
  pose proof (reduce_dates_None date_max (Waktu <$> df)) as Hmax.
  assert (Forall (λ v, v = None) (Waktu <$> df)
          ↔ Forall (λ rw, Waktu rw = None) df) as Hall
    by (by rewrite Forall_fmap).
  unfold series_min, series_max. split_and!.
  - rewrite <-Hall. split.
    + intros [= Hlo _]. by apply Hmin.
    + intros Hnone. f_equal; [by apply Hmin|by apply Hmax].
  - rewrite Hmin, Hmax. done.
  - intros lo hi [= Hlo Hhi].
    assert (Some hi ∈ Waktu <$> df) as Hhi_in
      by (apply (reduce_dates_elem date_max); [apply date_max_choice|done]).
    split_and!; [|apply (reduce_dates_elem date_min);
                    [apply date_min_choice|done]|done].
    by apply (reduce_dates_bound date_le date_min (Waktu <$> df) lo date_min_le).
Qed.

(** ** The examples and their words *)

Lemma elem_of_take_elem {A} (n : nat) (l : list A) (x : A) :
  x ∈ take n l → x ∈ l.
Proof. intros Hx. rewrite <-(take_drop n l). apply elem_of_app. by left. Qed.

(** X17. The number of examples is the number of rows with a match, five
    at most; the matched words of every example are at least one word, and
    words of the vocabulary only. *)
Theorem contoh_count_and_words (df : DataFrame) :
  let res := analyze_news_and_slang df in
  length (contoh_berita_gaul res)
  = 5 `min` counter_total (berita_gaul_per_sumber res)
  ∧ Forall (λ ex, kata_gaul ex ≠ ∅ ∧ kata_gaul ex ⊆ slang_dictionary)
      (contoh_berita_gaul res).
Proof.
  intros res.
  destruct (analyze_fields df) as (_ & _ & _ & _ & _ & _ & _ & _ & Hex).
  fold res in Hex. rewrite Hex. split.
  - rewrite length_take, length_fmap. f_equal.
    unfold res, analyze_news_and_slang.
    by rewrite analyze_with_loop, loop_per_sumber_total.
  - apply Forall_forall. intros ex Hin%elem_of_take_elem.
    apply list_elem_of_fmap in Hin as (rw & -> & [Hs _]%list_elem_of_filter).
    simpl. split.
    + unfold has_slang, title_slang, content_slang in Hs.
      assert (∃ w, w ∈ detect_slang_words (Judul rw) slang_dictionary
                       ++ detect_slang_words (Content rw) slang_dictionary)
        as [w Hw].
      { destruct (detect_slang_words (Judul rw) slang_dictionary) as [|w ?];
          [|exists w; left].
        destruct (detect_slang_words (Content rw) slang_dictionary) as [|w ?];
          [done|exists w; left]. }
      intros Hempty.
      assert (w ∈ (∅ : gset string)) as Hw'
        by (rewrite <-Hempty; by apply elem_of_list_to_set).
      by apply not_elem_of_empty in Hw'.
    + intros w [Hw|Hw]%elem_of_list_to_set%elem_of_app;
        by apply detect_elem_vocab in Hw.
Qed.

(** ** The bars of the slang-word chart *)

(** X18. The slang-word chart shows the head of the frequency mapping:
    at most ten bars, for words that differ from one another, each a word
    of the vocabulary with its count in the mapping, which is at least
    one; when the mapping holds at most ten words it shows all of them. *)
Theorem top_words_entries (df : DataFrame) :
  let res := analyze_news_and_slang df in
  top_words res `prefix_of` frekuensi_kata_gaul res
  ∧ length (top_words res) = 10 `min` length (frekuensi_kata_gaul res)
  ∧ NoDup ((top_words res).*1)
  ∧ Forall (λ e, e.1 ∈ slang_dictionary
                 ∧ counter_get (frekuensi_kata_gaul res) e.1 = e.2
                 ∧ 1 ≤ e.2) (top_words res)
  ∧ (length (frekuensi_kata_gaul res) ≤ 10
     → top_words res = frekuensi_kata_gaul res).
Proof.
  intros res. unfold top_words.
  assert (counter_wf (frekuensi_kata_gaul res)) as Hwf.
  { unfold res, analyze_news_and_slang. rewrite analyze_with_loop.
    apply loop_frekuensi_wf, counter_wf_nil. }
  split_and!.
  - apply prefix_take.
  - apply length_take.
  - rewrite fmap_take. destruct Hwf as [Hnd _].
    eapply sublist_NoDup; [done|apply sublist_take].
  - apply Forall_forall. intros [w n] Hin%elem_of_take_elem. simpl.
    apply (counter_elem_of _ _ _ Hwf) in Hin as Hget. destruct Hget as [Hn Hget].
    split_and!; [|done|lia].
    destruct (analyze_fields df) as (_ & _ & _ & Hf & _). fold res in Hf.
    rewrite Hf in Hget.
    destruct (sum_list_with_pos _ df ltac:(rewrite Hget; exact Hn))
      as (rw & _ & Hpos).
    destruct (decide (0 < count_of w (title_slang slang_dictionary rw))).
    + eapply detect_elem_vocab, count_of_pos_elem. done.
    + eapply detect_elem_vocab, (count_of_pos_elem w (content_slang _ rw)). lia.
  - intros Hlen. by apply take_ge.
Qed.

(** ** The ten tags *)

(** X19. A tag that the tag selection leaves out has a count that is at
    most the count of every selected tag, and the selection is then full
    (ten tags). *)
Theorem top_tags_are_highest (df : DataFrame) (t : string) (n : nat) :
  let pooled :=
    dropna ((Tag1 <$> df) ++ (Tag2 <$> df) ++ (Tag3 <$> df)
            ++ (Tag4 <$> df) ++ (Tag5 <$> df)) in
  (t, n) ∈ value_counts pooled →
  (t, n) ∉ top_tags (analyze_news_and_slang df) →
  length (top_tags (analyze_news_and_slang df)) = 10
  ∧ n = count_of t pooled
  ∧ Forall (λ e, n ≤ e.2 ∧ e.2 = count_of e.1 pooled)
      (top_tags (analyze_news_and_slang df)).
Proof.
  intros pooled Hin Hout.
  assert (top_tags (analyze_news_and_slang df) = take 10 (value_counts pooled))
    as Htop.
  { unfold analyze_news_and_slang. rewrite analyze_with_loop.
    by destruct (loop_frame slang_dictionary (initial_results df) df)
      as (_ & _ & _ & -> & _). }
  rewrite Htop in *.
  assert (counter_wf (value_counts pooled)) as Hwf.
  { unfold value_counts.
    eapply counter_wf_Permutation; [symmetry; apply sort_values_desc_Permutation|].
    apply counter_update_wf, counter_wf_nil. }
  assert (∀ e, e ∈ value_counts pooled → e.2 = count_of e.1 pooled) as Hcount.
  { intros [t' n'] [_ Hget]%(counter_elem_of _ _ _ Hwf). simpl.
    by rewrite <-Hget, counter_get_value_counts. }
  assert ((t, n) ∈ drop 10 (value_counts pooled)) as Hdrop.
  { rewrite <-(take_drop 10 (value_counts pooled)) in Hin.
    by apply elem_of_app in Hin as [?|?]. }
  pose proof (value_counts_Sorted pooled) as Hsorted.
  assert (Transitive (λ a b : string * nat, b.2 ≤ a.2)) as Htrans
    by (intros a b c ??; simpl in *; lia).
  apply Sorted_StronglySorted in Hsorted; [|done].
  rewrite <-(take_drop 10 (value_counts pooled)) in Hsorted.
  apply StronglySorted_app in Hsorted as (Hle & _ & _).
  split_and!.
  - rewrite length_take. apply list_elem_of_lookup in Hdrop as [i Hi].
    apply lookup_lt_Some in Hi. rewrite length_drop in Hi. lia.
  - by apply (Hcount (t, n)).
  - apply Forall_forall. intros e He. split; [by apply (Hle e (t, n) He Hdrop)|].
    by apply Hcount, (elem_of_take_elem 10).
Qed.

(** Three rows with eleven tags between them, the tag "a" twice. *)
Lemma top_tags_are_highest_witness :
  let tags (t1 t2 t3 t4 t5 : cell) :=
    MkRow (CText "Kabar") None CNaN (CText "isi") t1 t2 t3 t4 t5 (CText "Detik") in
  let df := [ tags (CText "a") (CText "b") (CText "c") (CText "d") (CText "e");
              tags (CText "f") (CText "g") (CText "h") (CText "i") (CText "j");
              tags (CText "a") (CText "k") CNaN CNaN CNaN ] in
  let pooled :=
    dropna ((Tag1 <$> df) ++ (Tag2 <$> df) ++ (Tag3 <$> df)
            ++ (Tag4 <$> df) ++ (Tag5 <$> df)) in
  (("j", 1) ∈ value_counts pooled
   ∧ ("j", 1) ∉ top_tags (analyze_news_and_slang df))
  ∧ (length (top_tags (analyze_news_and_slang df)) = 10
     ∧ 1 = count_of "j" pooled
     ∧ Forall (λ e, 1 ≤ e.2 ∧ e.2 = count_of e.1 pooled)
         (top_tags (analyze_news_and_slang df))).
Proof.
  intros tags df pooled.
  assert (("j", 1) ∈ value_counts pooled) as Hin by compute_done.
  assert (("j", 1) ∉ top_tags (analyze_news_and_slang df)) as Hout
    by compute_done.
  split; [by split|]. exact (top_tags_are_highest df "j" 1 Hin Hout).
Defined.

(** ** The sources Series *)

(** X20. The per-source row counts come in descending order of count,
    hold no source twice and no zero count, and hold a source exactly when
    some row has it. *)
Theorem sumber_berita_spec (df : DataFrame) :
  let per_source := sumber_berita (analyze_news_and_slang df) in
  Sorted (λ a b, b.2 ≤ a.2) per_source
  ∧ NoDup (per_source.*1)
  ∧ Forall (λ e, 1 ≤ e.2) per_source
  ∧ ∀ s, s ∈ per_source.*1 ↔ ∃ rw, rw ∈ df ∧ Source rw = CText s.
Proof.
  intros per_source.
  assert (per_source = value_counts (dropna (Source <$> df))) as Heq
    by (unfold per_source; by destruct (pandas_fields_analyze df) as [_ ->]).
  assert (counter_wf per_source) as Hwf.
  { rewrite Heq. unfold value_counts.
    eapply counter_wf_Permutation; [symmetry; apply sort_values_desc_Permutation|].
    apply counter_update_wf, counter_wf_nil. }
  assert (∀ s, counter_get per_source s
               = length (filter (λ rw, Source rw = CText s) df)) as Hget.
  { intros s. by rewrite Heq, counter_get_value_counts, count_of_sources. }
  split_and!; [rewrite Heq; apply value_counts_Sorted|apply Hwf|apply Hwf|].
  intros s. split.
  - intros ([s' n] & -> & Hin)%list_elem_of_fmap. simpl.
    apply (counter_elem_of _ _ _ Hwf) in Hin as [Hn Hn'].
    rewrite Hget in Hn'.
    destruct (filter (λ rw, Source rw = CText s') df) as [|rw l] eqn:E;
      [simpl in Hn'; lia|].
    assert (rw ∈ filter (λ rw, Source rw = CText s') df) as Hrw
      by (rewrite E; left).
    apply list_elem_of_filter in Hrw as [? ?]. by exists rw.
  - intros (rw & Hrw & Hs).
    assert (rw ∈ filter (λ rw, Source rw = CText s) df) as Hin
      by (by apply list_elem_of_filter).
    apply list_elem_of_fmap.
    exists (s, length (filter (λ rw, Source rw = CText s) df)).
    split; [done|]. apply (counter_elem_of _ _ _ Hwf). split; [|apply Hget].
    destruct (filter (λ rw, Source rw = CText s) df);
      [by apply elem_of_nil in Hin|simpl; lia].
Qed.

(** ** What the loader keeps *)

Module StrptimeFacts.
Import Strptime.

Lemma guard_range_Some (lo hi v x : N) :
  guard_range lo hi v = Some x → x = v ∧ (lo ≤ v ≤ hi)%N.
Proof.
  unfold guard_range. destruct ((lo <=? v)%N && (v <=? hi)%N) eqn:E; [|done].
  intros [= <-]. apply andb_true_iff in E as [?%N.leb_le ?%N.leb_le]. lia.
Qed.

Lemma directive_d_Some (f : list ascii) (x : N) :
  directive_d f = Some x → (1 ≤ x)%N.
Proof.
  unfold directive_d. destruct f as [|a [|b [|? ?]]]; [done| | |done].
  - destruct (digit a); simpl; [|done]. intros [-> ?]%guard_range_Some; lia.
  - destruct (decide (a = " "%char)).
    + destruct (digit b); simpl; [|done]. intros [-> ?]%guard_range_Some; lia.
    + destruct (digit a); simpl; [|done]. destruct (digit b); simpl; [|done].
      intros [-> ?]%guard_range_Some; lia.
Qed.

Lemma directive_m_Some (f : list ascii) (x : N) :
  directive_m f = Some x → (1 ≤ x ≤ 12)%N.
Proof.
  unfold directive_m. destruct f as [|a [|b [|? ?]]]; [done| | |done].
  - destruct (digit a); simpl; [|done].
    intros [-> ?]%guard_range_Some; lia.
  - destruct (digit a); simpl; [|done]. destruct (digit b); simpl; [|done].
    intros [-> ?]%guard_range_Some; lia.
Qed.

Lemma parse_dmy_valid (s : string) (d : date) :
  parse_dmy s = Some d → valid_date d.
Proof.
  unfold parse_dmy.
  destruct (split_on "/" [] s) as [|fd [|fm [|fy [|? ?]]]]; try done.
  destruct (directive_d fd) as [x|] eqn:Hd; simpl; [|done].
  destruct (directive_m fm) as [m|] eqn:Hm; simpl; [|done].
  destruct (directive_Y fy) as [y|] eqn:Hy; simpl; [|done].
  destruct ((x <=? days_in_month y m)%N && in_bounds (Date y m x)) eqn:E;
    [|done].
  intros [= <-]. apply andb_true_iff in E as [Hx%N.leb_le Hb].
  unfold in_bounds in Hb.
  apply andb_true_iff in Hb as [Hlo%bool_decide_eq_true Hhi%bool_decide_eq_true].
  apply directive_d_Some in Hd. apply directive_m_Some in Hm.
  unfold valid_date. simpl. split_and!; done || lia.
Qed.

End StrptimeFacts.

(** X21. Every date of a loaded table that is not null is a day of the
    calendar (month 1 to 12, day 1 to the length of that month in that
    year) between 1677-09-22 and 2262-04-11. *)
Theorem loaded_dates_valid (fs : filesystem) (file_path : string) (df : DataFrame) :
  (load_data fs file_path).1 = Some df →
  Forall (λ rw, ∀ d, Waktu rw = Some d → valid_date d) df.
Proof.
  unfold load_data. destruct (fs file_path) as [lines|e]; [|done].
  simpl. intros [= <-]. apply Forall_forall.
  intros rw (l & -> & _)%list_elem_of_fmap d. simpl.
  destruct (raw_Waktu l) as [s|]; simpl; [|done].
  apply StrptimeFacts.parse_dmy_valid.
Qed.

(** A file of three lines, the second with the date 31/02/2024. *)
Lemma loaded_dates_valid_witness :
  let lines := [ baris "A" "29/02/2024" "Detik";
                 baris "B" "31/02/2024" "Tempo";
                 baris "C" "5/9/2024" "Kompas" ] in
  let fs : filesystem := λ _, ReadOk lines in
  let df := convert_row <$> lines in
  (load_data fs "politik_merge.csv").1 = Some df
  ∧ Forall (λ rw, ∀ d, Waktu rw = Some d → valid_date d) df.
Proof.
  intros lines fs df. split; [reflexivity|].
  apply (loaded_dates_valid fs "politik_merge.csv" df). reflexivity.
Defined.

(** X22. When the file is read, the table has one row per line, in the
    order of the lines, with the title, content, source and tag cells of
    each line as they were read; one line of warning is printed at most,
    and none exactly when every date field parses. *)
Theorem load_data_keeps_lines (fs : filesystem) (file_path : string)
    (lines : list raw_row) :
  fs file_path = ReadOk lines →
  ∃ df out,
    load_data fs file_path = (Some df, out)
    ∧ length df = length lines
    ∧ Forall2 (λ rw l,
                 Judul rw = raw_Judul l ∧ Content rw = raw_Content l
                 ∧ Source rw = raw_Source l ∧ Link rw = raw_Link l
                 ∧ [Tag1 rw; Tag2 rw; Tag3 rw; Tag4 rw; Tag5 rw]
                   = [raw_Tag1 l; raw_Tag2 l; raw_Tag3 l; raw_Tag4 l; raw_Tag5 l]
                 ∧ Waktu rw = to_datetime (raw_Waktu l)) df lines
    ∧ length out ≤ 1
    ∧ (out = [] ↔ Forall (λ l, to_datetime (raw_Waktu l) ≠ None) lines).
Proof.
  intros Hfs. unfold load_data. rewrite Hfs. eexists _, _. split; [done|].
  split_and!.
  - by rewrite length_fmap.
  - apply Forall2_fmap_l, Forall_Forall2_diag, Forall_forall. by intros l _.
  - case_decide; simpl; lia.
  - assert (isnull_sum (Waktu <$> (convert_row <$> lines)) = 0
            ↔ Forall (λ l, to_datetime (raw_Waktu l) ≠ None) lines) as Hnull.
    { clear Hfs. unfold isnull_sum. induction lines as [|l lines IH]; csimpl.
      - split; [constructor|done].
      - rewrite filter_cons, Forall_cons.
        destruct (to_datetime (raw_Waktu l)) as [d|] eqn:E; simpl.
        + try (rewrite decide_False by done). rewrite IH.
          split; [by split|by intros [_ ?]].
        + try (rewrite decide_True by done). simpl.
          split; [lia|by intros [? _]]. }
    rewrite <-Hnull. case_decide; split; intros ?; (done || lia).
Qed.

(** A file of two lines whose dates parse. *)
Lemma load_data_keeps_lines_witness :
  let lines := [baris "A" "29/02/2024" "Detik"; baris "B" "5/9/2024" "Tempo"] in
  let fs : filesystem := λ _, ReadOk lines in
  fs "politik_merge.csv" = ReadOk lines
  ∧ ∃ df out,
      load_data fs "politik_merge.csv" = (Some df, out)
      ∧ length df = length lines
      ∧ Forall2 (λ rw l,
                   Judul rw = raw_Judul l ∧ Content rw = raw_Content l
                   ∧ Source rw = raw_Source l ∧ Link rw = raw_Link l
                   ∧ [Tag1 rw; Tag2 rw; Tag3 rw; Tag4 rw; Tag5 rw]
                     = [raw_Tag1 l; raw_Tag2 l; raw_Tag3 l; raw_Tag4 l;
                        raw_Tag5 l]
                   ∧ Waktu rw = to_datetime (raw_Waktu l)) df lines
      ∧ length out ≤ 1
      ∧ (out = [] ↔ Forall (λ l, to_datetime (raw_Waktu l) ≠ None) lines).
Proof.
  intros lines fs. split; [reflexivity|].
  apply (load_data_keeps_lines fs "politik_merge.csv" lines). reflexivity.
Defined.

(** ** The cells the slang statistics read *)

Lemma process_row_same_text (V : gset string) (r r' : results) (a b : row) :
  same_slang r r' →
  Judul a = Judul b → Content a = Content b → Source a = Source b →
  same_slang (process_row V r a) (process_row V r' b).
Proof.
  intros (Hj & Hk & Hf & Hs & Hc) HJ HC HS. rewrite !process_row_fields.
  unfold same_slang, has_slang, title_slang, content_slang. simpl.
  rewrite HJ, HC, HS, Hj, Hk, Hf, Hs. split_and!; [done..|].
  rewrite (Forall2_length _ _ _ Hc).
  destruct (_ && _); [|done].
  apply Forall2_app; [done|]. constructor; [|constructor].
  unfold contoh_of. simpl. by rewrite HJ, HC, HS.
Qed.

(** X23. The slang statistics read the title, the content and the source
    of a row and nothing else: two tables whose rows agree, one by one, on
    these three cells have the same title and content counters, the same
    frequency mapping, the same per-source slang counts, and examples
    with the same titles, sources and matched words. *)
Theorem slang_statistics_read_three_cells (df df' : DataFrame) :
  Forall2 (λ a b, Judul a = Judul b ∧ Content a = Content b
                  ∧ Source a = Source b) df df' →
  same_slang (analyze_news_and_slang df) (analyze_news_and_slang df').
Proof.
  intros Hrows. unfold analyze_news_and_slang. rewrite !analyze_with_loop.
  assert (same_slang (initial_results df) (initial_results df')) as Hinit
    by (unfold same_slang; simpl; split_and!; done || constructor).
  revert Hinit. generalize (initial_results df) (initial_results df').
  induction Hrows as [|a b df df' (HJ & HC & HS) _ IH]; intros r r' Hr; [done|].
  rewrite !loop_cons. by apply IH, process_row_same_text.
Qed.

(** The same two articles, dated and tagged in one table only. *)
Lemma slang_statistics_read_three_cells_witness :
  let df := [berita "Gue banget" "isi" "Detik"; berita "Kabar" "nih dong" "Tempo"] in
  let df' :=
    [ MkRow (CText "Gue banget") (Some (Date 2024 1 1)) (CText "l1")
        (CText "isi") (CText "a") CNaN CNaN CNaN CNaN (CText "Detik");
      MkRow (CText "Kabar") (Some (Date 2024 9 5)) (CText "l2")
        (CText "nih dong") (CText "b") (CText "a") CNaN CNaN CNaN
        (CText "Tempo") ] in
  Forall2 (λ a b, Judul a = Judul b ∧ Content a = Content b
                  ∧ Source a = Source b) df df'
  ∧ same_slang (analyze_news_and_slang df) (analyze_news_and_slang df').
Proof.
  intros df df'.
  assert (Forall2 (λ a b, Judul a = Judul b ∧ Content a = Content b
                          ∧ Source a = Source b) df df') as Hrows
    by (repeat constructor).
  split; [exact Hrows|]. exact (slang_statistics_read_three_cells df df' Hrows).
Defined.
